(** * dzcb: the codeplug-to-table compiler ([dzcb.munge], [dzcb.output.dmrconfig])

    A shallow embedding of the name normalizer of [src/dzcb/munge.py] and of
    the dmrconfig output filter of [src/dzcb/output/dmrconfig.py], followed by
    the properties of the specification that concern them.

    Conventions.
    - A Python [str] is a list of characters, each standing for a code point
      below 256 (the ASCII and Latin-1 blocks).  [L "..."] turns a literal
      into such a list.
    - A Python [int] is a [Z].
    - A raised exception is the [Err] case of [result]; the constructors of
      [exn] are the exception classes the code can raise.
    - A [dict] is an insertion-ordered association list with at most one
      entry per key, as Python dictionaries are.
    - The classes of [dzcb.model] (the codeplug and its entities) are not part
      of the two modules embedded here; their attributes are records below,
      and the operations of theirs that the output filter calls are the
      fields of the classes [DzcbBase] and [DzcbModel]: the arithmetic and
      the enumeration methods in the first, the equality of contacts and of
      channels, which decides when two of them are one dictionary key, in
      the second. *)

From Stdlib Require Import ZArith List Ascii String Lia Bool.
From Stdlib Require Import Numbers.DecimalString Numbers.DecimalZ.
From stdpp Require Import base decidable option list strings.

Import ListNotations.
Open Scope Z_scope.

Abbreviation str := (list ascii).

(** A string literal as a Python [str]. *)
Definition L (s : string) : str := list_ascii_of_string s.

(* ================================================================== *)
(** * Exceptions *)
(* ================================================================== *)

Inductive exn : Type :=
| TemplateError (msg : str)   (* class TemplateError(ValueError) *)
| ValueError (msg : str)      (* Radio(value) on an unknown value, model errors *)
| KeyError                    (* items_by_index[...] on a missing key *)
| TypeError                   (* a failed instance_of validator, number + None *)
| AttributeError.             (* attribute access on None *)

Inductive result (A : Type) : Type :=
| Ok (a : A)
| Err (e : exn).
Arguments Ok {A} a.
Arguments Err {A} e.

Global Instance result_ret : MRet result := fun A a => Ok a.
Global Instance result_bind : MBind result := fun A B k r =>
  match r with
  | Ok a => k a
  | Err e => Err e
  end.

(** [mapM f l] runs [f] over a list from left to right and stops at the first
    exception: a [for] loop, or a generator drained by [tuple], whose body may
    raise.  [foldM] is the same for a loop that updates a state. *)
Fixpoint foldM {A S} (f : S -> A -> result S) (s : S) (l : list A) : result S :=
  match l with
  | [] => Ok s
  | a :: l' => s' ← f s a; foldM f s' l'
  end.

Definition is_Ok {A} (r : result A) : Prop := exists a, r = Ok a.

(* ================================================================== *)
(** * Python built-ins used by the two modules *)
(* ================================================================== *)

Module Py.

Definition ord (c : ascii) : nat := nat_of_ascii c.

Definition len {A} (l : list A) : Z := Z.of_nat (length l).

(** [str(n)] for an int. *)
Definition str_of_int (n : Z) : str := L (NilZero.string_of_int (Z.to_int n)).

(** A slice bound [k] against a sequence of length [n]: negative bounds count
    from the end, and everything is clipped to [0 .. n]. *)
Definition slice_bound (n : nat) (k : Z) : nat :=
  if k <? 0 then Z.to_nat (Z.max 0 (Z.of_nat n + k))
  else Z.to_nat (Z.min k (Z.of_nat n)).

(** [s[:k]] *)
Definition slice_to {A} (s : list A) (k : Z) : list A :=
  take (slice_bound (length s) k) s.

(** [s[k:]] *)
Definition slice_from {A} (s : list A) (k : Z) : list A :=
  drop (slice_bound (length s) k) s.

(** [s.startswith(p)] *)
Fixpoint startswith (p s : str) : bool :=
  match p, s with
  | [], _ => true
  | _ :: _, [] => false
  | a :: p', b :: s' => Ascii.eqb a b && startswith p' s'
  end.

(** [s.find(sub)]: the lowest index at which [sub] occurs, if any. *)
Fixpoint find (sub s : str) : option nat :=
  if startswith sub s then Some 0%nat
  else match s with
       | [] => None
       | _ :: s' => S <$> find sub s'
       end.

(** [sub in s] *)
Definition contains (sub s : str) : bool :=
  match find sub s with Some _ => true | None => false end.

(** [s.partition(sep)] *)
Definition partition (s sep : str) : str * str * str :=
  match find sep s with
  | Some i => (take i s, sep, drop (i + length sep) s)
  | None => (s, [], [])
  end.

(** The scan of [s.replace(old, new)] for a non-empty [old]: [skip] counts the
    characters of the occurrence just replaced that are still to be passed
    over, so that occurrences are found from left to right and do not
    overlap. *)
Fixpoint replace_go (old new : str) (skip : nat) (s : str) : str :=
  match s with
  | [] => []
  | c :: s' =>
      match skip with
      | S k => replace_go old new k s'
      | O =>
          if startswith old s
          then new ++ replace_go old new (length old - 1) s'
          else c :: replace_go old new 0 s'
      end
  end.

(** [s.replace(old, new)].  An empty [old] matches before every character
    and at the end. *)
Definition replace (old new s : str) : str :=
  match old with
  | [] => new ++ concat (map (fun c => c :: new) s)
  | _ :: _ => replace_go old new 0 s
  end.

(** [sep.join(parts)] *)
Fixpoint join (sep : str) (parts : list str) : str :=
  match parts with
  | [] => []
  | [p] => p
  | p :: rest => p ++ sep ++ join sep rest
  end.

(** [c.isspace()], which is also what [\s] matches in a [str] pattern. *)
Definition isspace (c : ascii) : bool :=
  let n := ord c in
  ((9 <=? n) && (n <=? 13) || (28 <=? n) && (n <=? 32)
   || (n =? 133) || (n =? 160))%nat.

(** What [[A-Z]] matches. *)
Definition is_AZ (c : ascii) : bool :=
  let n := ord c in ((65 <=? n) && (n <=? 90))%nat.

(** [c.lower()] on one code point below 256. *)
Definition lower_char (c : ascii) : ascii :=
  let n := ord c in
  if ((65 <=? n) && (n <=? 90)
      || (192 <=? n) && (n <=? 222) && negb (n =? 215))%nat
  then ascii_of_nat (n + 32) else c.

(** [s.lower()] *)
Definition lower (s : str) : str := map lower_char s.

Fixpoint lstrip (s : str) : str :=
  match s with
  | c :: s' => if isspace c then lstrip s' else s
  | [] => []
  end.

(** [s.rstrip()] *)
Definition rstrip (s : str) : str := reverse (lstrip (reverse s)).

(** A line boundary of [str.splitlines] (other than the pair CR LF). *)
Definition is_linebreak (c : ascii) : bool :=
  let n := ord c in
  ((10 <=? n) && (n <=? 13) || (28 <=? n) && (n <=? 30) || (n =? 133))%nat.

(** [s.splitlines()], with [cur] the characters of the line being read,
    most recent first.  CR LF counts as one boundary, and no empty last line
    is produced when the text ends with a boundary. *)
Fixpoint splitlines_go (cur : str) (s : str) : list str :=
  match s with
  | [] => match cur with [] => [] | _ :: _ => [reverse cur] end
  | c :: s' =>
      if is_linebreak c then
        reverse cur ::
          match s' with
          | d :: s'' =>
              if (ord c =? 13)%nat && (ord d =? 10)%nat
              then splitlines_go [] s''
              else splitlines_go [] s'
          | [] => []
          end
      else splitlines_go (c :: cur) s'
  end.

Definition splitlines (s : str) : list str := splitlines_go [] s.

(** The newline character, as a string. *)
Definition newline : str := ["010"%char].

(** [s.ljust(w)] and [s.rjust(w)]: what a width in a format field does to
    a string and to a number. *)
Definition ljust (w : nat) (s : str) : str :=
  s ++ repeat " "%char (w - length s).
Definition rjust (w : nat) (s : str) : str :=
  repeat " "%char (w - length s) ++ s.

(** [enumerate(l)] *)
Definition enumerate {A} (l : list A) : list (nat * A) :=
  zip (seq 0 (length l)) l.

End Py.

(* ================================================================== *)
(** * dzcb.munge: the name normalizer *)
(* ================================================================== *)

Module Munge.
Import Py.

(** The replacements used when channel names are generated, in the order of
    the dictionary literal. *)
Definition Talkgroup_Channel_name_replacements : list (str * str) :=
  [ (L "Audio Test", L "A.Test");
    (L "California", L "CA");
    (L "English", L "Eng");
    (L "Hawaii", L "HI");
    (L "Idaho", L "ID");
    (L "Montana", L "MT");
    (L "North America", L "NA");
    (L "Oregon", L "OR");
    (L "Utah", L "UT");
    (L "Washington", L "WA");
    (L "Worldwide", L "WW") ].

(** The loop [while len(ch_name) > max_length] of [channel_name].
    [replacements] is the copy of the dictionary as a stack with the entry
    that [popitem] returns next, the one inserted last, at its head. *)
Fixpoint shorten (replacements : list (str * str)) (ch_name : str)
    (max_length : Z) : str :=
  if max_length <? len ch_name then
    match replacements with
    | [] => ch_name                                     (* break *)
    | (old, new) :: replacements' =>
        shorten replacements' (replace old new ch_name) max_length
    end
  else ch_name.

(** The longest run of [[A-Z]] at the head of [s], and what follows it. *)
Fixpoint upper_run (s : str) : str * str :=
  match s with
  | c :: s' =>
      if is_AZ c then let '(u, rest) := upper_run s' in (c :: u, rest)
      else ([], s)
  | [] => ([], [])
  end.

(** [$] without MULTILINE: the end of the string, or just before a newline
    that is its last character. *)
Definition at_dollar (s : str) : bool :=
  match s with
  | [] => true
  | [c] => (ord c =? 10)%nat
  | _ => false
  end.

(** [\s[A-Z]+$] matched at the head of [s]; the result is the text matched.
    The greedy [[A-Z]+] takes the whole run: after a shorter one comes a
    letter, where [$] cannot match. *)
Definition match_space_upper (s : str) : option str :=
  match s with
  | c :: s' =>
      if isspace c then
        let '(u, rest) := upper_run s' in
        match u with
        | _ :: _ => if at_dollar rest then Some (c :: u) else None
        | [] => None
        end
      else None
  | [] => None
  end.

Definition is_12 (c : ascii) : bool := ((ord c =? 49) || (ord c =? 50))%nat.

(** [[12]?\s[A-Z]+$] matched at the head of [s]: first with the digit, then
    without it. *)
Definition match_tail_code (s : str) : option str :=
  match s with
  | c :: s' =>
      if is_12 c then
        match match_space_upper s' with
        | Some m => Some (c :: m)
        | None => match_space_upper s
        end
      else match_space_upper s
  | [] => None
  end.

(** [re.search(r"[12]?\s[A-Z]+$", s)]: the match at the lowest position, as
    [tail_code.group()]. *)
Fixpoint search_tail_code (s : str) : option str :=
  match match_tail_code s with
  | Some m => Some m
  | None =>
      match s with
      | _ :: s' => search_tail_code s'
      | [] => None
      end
  end.

Definition channel_name (ch_name : str) (max_length : Z) : str :=
  (* Replace Long strings with shorter ones *)
  let ch_name :=
    shorten (reverse Talkgroup_Channel_name_replacements) ch_name max_length in
  (* Truncate the channel name (try to preserve the tail characters) *)
  let tail_code := search_tail_code ch_name in
  let ch_name :=
    match tail_code with
    | Some group =>
        if max_length <? len ch_name then
          let n_tail := len group in
          if n_tail + 1 <? max_length then
            let n_trunc := len ch_name - max_length in
            slice_to ch_name (- n_trunc - n_tail) ++ slice_from ch_name (- n_tail)
          else ch_name
        else ch_name
    | None => ch_name
    end in
  slice_to ch_name max_length.

Definition zone_name (zone_name : str) (max_length : Z) : str :=
  slice_to zone_name max_length.

End Munge.

(* ================================================================== *)
(** * Dictionaries and format strings *)
(* ================================================================== *)

Module Dict.
Section Dict.
Context {K V : Type} `{EqDecision K}.

Definition dict : Type := list (K * V).

(** [d.get(k)] *)
Fixpoint get (d : dict) (k : K) : option V :=
  match d with
  | [] => None
  | (k', v) :: d' => if decide (k' = k) then Some v else get d' k
  end.

(** [d[k] = v]: an existing key keeps its place, a new one goes last. *)
Fixpoint set (d : dict) (k : K) (v : V) : dict :=
  match d with
  | [] => [(k, v)]
  | (k', v') :: d' =>
      if decide (k' = k) then (k, v) :: d' else (k', v') :: set d' k v
  end.

(** [d[k]] *)
Definition item (d : dict) (k : K) : result V :=
  match get d k with
  | Some v => Ok v
  | None => Err KeyError
  end.

(** The keys, as iterating over [d] gives them. *)
Definition keys (d : dict) : list K := map fst d.
End Dict.
Arguments dict : clear implicits.
End Dict.
Abbreviation dict := Dict.dict.

Module Format.
Import Py.

(** A value handed to [str.format]: an int, a string, or a number of the
    model (a frequency), shown by the model's own [str]. *)
Inductive pyval : Type :=
| PyInt (n : Z)
| PyStr (s : str)
| PyShown (text : str).     (* a non-integer number, by its [str()] *)

(** A replacement field with a width and no other format specification:
    numbers are right-aligned, strings left-aligned; nothing is cut. *)
Definition format_field (v : pyval) (width : nat) : str :=
  match v with
  | PyInt n => rjust width (str_of_int n)
  | PyStr s => ljust width s
  | PyShown text => rjust width text
  end.

Inductive piece : Type :=
| Lit (c : ascii)
| Field (name : str) (width : nat).

Inductive state : Type :=
| InText
| InName (name : str)                  (* after an opening brace, reversed *)
| InWidth (name : str) (width : nat).  (* after the colon *)

Definition digit (c : ascii) : option nat :=
  let n := ord c in
  if ((48 <=? n) && (n <=? 57))%nat then Some (n - 48)%nat else None.

(** The fields of a format string.  The format strings of the output filter
    use [{name}] and [{name:width}] only (no brace escapes, no conversions);
    anything else is refused here. *)
Fixpoint parse (st : state) (s : str) : result (list piece) :=
  match s with
  | [] =>
      match st with
      | InText => Ok []
      | _ => Err (ValueError (L "expected '}' before end of string"))
      end
  | c :: s' =>
      match st with
      | InText =>
          if Ascii.eqb c "{" then parse (InName []) s'
          else if Ascii.eqb c "}"
          then Err (ValueError (L "Single '}' encountered in format string"))
          else ps ← parse InText s'; Ok (Lit c :: ps)
      | InName name =>
          if Ascii.eqb c "}"
          then ps ← parse InText s'; Ok (Field (reverse name) 0 :: ps)
          else if Ascii.eqb c ":" then parse (InWidth (reverse name) 0) s'
          else parse (InName (c :: name)) s'
      | InWidth name width =>
          if Ascii.eqb c "}"
          then ps ← parse InText s'; Ok (Field name width :: ps)
          else match digit c with
               | Some d => parse (InWidth name (10 * width + d)) s'
               | None => Err (ValueError (L "Invalid format specifier"))
               end
      end
  end.

(** [fmt.format] called with the keyword arguments [kwargs]. *)
Definition format (fmt : str) (kwargs : dict str pyval) : result str :=
  ps ← parse InText fmt;
  parts ← mapM (fun p =>
             match p with
             | Lit c => Ok [c]
             | Field name width =>
                 v ← Dict.item kwargs name; Ok (format_field v width)
             end) ps;
  Ok (concat parts).

End Format.

(* ================================================================== *)
(** * dzcb.model: what the output filter reads of the codeplug *)
(* ================================================================== *)

Module Model.

(** The members of [dzcb.model.Power] and [dzcb.model.Bandwidth] that the
    output filter names. *)
Inductive Power : Type := HIGH | MED | LOW | TURBO.
Inductive Bandwidth : Type := _125 | _25.

Global Instance Power_eq_dec : EqDecision Power.
Proof. solve_decision. Defined.
Global Instance Bandwidth_eq_dec : EqDecision Bandwidth.
Proof. solve_decision. Defined.

(** The parts of [dzcb] outside the two embedded modules that the output
    filter calls: identifiers and frequencies with their operations, the
    enumeration methods [value] and [flattened], and the package version. *)
Class DzcbBase : Type := {
  Ident : Type;                                  (* grouplist._id, scanlist._id *)
  Ident_eq_dec :: EqDecision Ident;
  Number : Type;                                 (* ch.frequency, ch.offset *)
  Number_add : Number -> Number -> Number;       (* x + y on two numbers *)
  Number_str : Number -> str;                    (* str(x) *)
  Power_value : Power -> str;                    (* p.value *)
  Power_flattened : Power -> list Power -> result Power;
  Bandwidth_value : Bandwidth -> str;
  Bandwidth_flattened : Bandwidth -> list Bandwidth -> result Bandwidth;
  __version__ : str
}.

Section Entities.
Context `{B : DzcbBase}.

(** A contact; a talkgroup is a contact with a timeslot. *)
Record Contact : Type := {
  Contact_name : str;
  Contact_kind : str;           (* contact.kind.value *)
  Contact_dmrid : Z;
  Contact_timeslot : Z          (* talkgroup.timeslot.value *)
}.

(** A channel has a frequency; its offset is optional, [None] when the
    channel was given none. *)
Record AnalogChannel : Type := {
  a_short_name : str;
  a_frequency : Number;
  a_offset : option Number;
  a_power : Power;
  a_scanlist : option Ident;    (* the _id of a scan list, or None *)
  a_rx_only : bool;
  a_tone_decode : option str;
  a_tone_encode : option str;
  a_bandwidth : Bandwidth
}.

Record DigitalChannel : Type := {
  d_short_name : str;
  d_frequency : Number;
  d_offset : option Number;
  d_power : Power;
  d_scanlist : option Ident;
  d_rx_only : bool;
  d_color_code : Z;
  d_talkgroup : option Contact;
  d_grouplist : option Ident    (* the _id of a group list, or None *)
}.

(** [isinstance(ch, AnalogChannel)] and [isinstance(ch, DigitalChannel)]
    are the two cases of a channel. *)
Inductive Channel : Type :=
| Analog (ch : AnalogChannel)
| Digital (ch : DigitalChannel).

Record Zone : Type := {
  Zone_name : str;
  Zone_unique_channels : list Channel
}.

Record ScanList : Type := {
  ScanList_id : Ident;                (* _id *)
  ScanList_name : str;
  ScanList_channels : list Channel
}.

Record GroupList : Type := {
  GroupList_id : Ident;               (* _id *)
  GroupList_name : str;
  GroupList_contacts : list Contact
}.

Record Codeplug : Type := {
  contacts : list Contact;
  channels : list Channel;
  grouplists : list GroupList;
  scanlists : list ScanList;
  zones : list Zone
}.

(** [frequency + offset]: adding [None] to a number raises TypeError. *)
Definition add_offset (frequency : Number) (offset : option Number)
    : result Number :=
  match offset with
  | Some o => Ok (Number_add frequency o)
  | None => Err TypeError
  end.
End Entities.

(** The index lookup uses contacts and channels themselves as dictionary
    keys, so that two of them are one key when [__eq__] and [__hash__] of
    their class in [dzcb.model] say so.  That class is not among the sources
    of the output filter: the equality is left open here, as a function that
    sends an object to what its equality compares.  Two contacts, or two
    channels, are the same dictionary key exactly when their keys are
    equal. *)
Class DzcbModel : Type := {
  DzcbModel_base :: DzcbBase;
  ContactKey : Type;
  ContactKey_eq_dec :: EqDecision ContactKey;
  Contact_key : Contact -> ContactKey;           (* hash(contact), contact == c *)
  ChannelKey : Type;
  ChannelKey_eq_dec :: EqDecision ChannelKey;
  Channel_key : Channel -> ChannelKey            (* hash(ch), ch == c *)
}.

End Model.

(* ================================================================== *)
(** * dzcb.output.dmrconfig: radios, limits and index ranges *)
(* ================================================================== *)

Module Dmrconfig.
Import Py Format Model.

Inductive Radio : Type := D868 | DMR6X2 | GD77 | MD_UV380 | MD_380 | RD5R.

Global Instance Radio_eq_dec : EqDecision Radio.
Proof. solve_decision. Defined.

(** The members of the enumeration, in definition order. *)
Definition Radio_members : list Radio :=
  [D868; DMR6X2; GD77; MD_UV380; MD_380; RD5R].

Definition Radio_value (r : Radio) : str :=
  match r with
  | D868 => L "Anytone AT-D868UV"
  | DMR6X2 => L "BTECH DMR-6x2"
  | GD77 => L "Radioddity GD-77"
  | MD_UV380 => L "TYT MD-UV380"
  | MD_380 => L "TYT MD-380"
  | RD5R => L "Baofeng RD-5R"
  end.

(** [Radio(value)]: the member with that value, or [ValueError] (the
    exception carries the value refused). *)
Definition Radio_of_value (value : str) : result Radio :=
  match List.find (fun r => bool_decide (Radio_value r = value)) Radio_members with
  | Some r => Ok r
  | None => Err (ValueError value)
  end.

(** A limit is a pair (lowest, highest) or [None]. *)
Definition channel_limit (r : Radio) : option (Z * Z) :=
  match r with
  | D868 => Some (1, 4000)
  | DMR6X2 => Some (1, 4000)
  | RD5R => Some (1, 1024)
  | GD77 => Some (1, 1024)
  | MD_380 => Some (1, 1000)
  | MD_UV380 => Some (1, 3000)
  end.

Definition zone_limit (r : Radio) : option (Z * Z) :=
  match r with
  | D868 => Some (1, 250)
  | DMR6X2 => Some (1, 250)
  | RD5R => Some (1, 250)
  | GD77 => Some (1, 250)
  | MD_380 => Some (1, 250)
  | MD_UV380 => Some (1, 250)
  end.

Definition scanlist_limit (r : Radio) : option (Z * Z) :=
  match r with
  | D868 => Some (1, 250)
  | DMR6X2 => Some (1, 250)
  | RD5R => None
  | GD77 => Some (1, 64)
  | MD_380 => Some (1, 250)
  | MD_UV380 => Some (1, 250)
  end.

Definition contact_limit (r : Radio) : option (Z * Z) :=
  match r with
  | D868 => Some (1, 10000)
  | DMR6X2 => Some (1, 10000)
  | RD5R => Some (1, 256)
  | GD77 => Some (1, 1024)
  | MD_380 => Some (1, 10000)
  | MD_UV380 => Some (1, 10000)
  end.

Definition grouplist_limit (r : Radio) : option (Z * Z) :=
  match r with
  | D868 => Some (1, 250)
  | DMR6X2 => Some (1, 250)
  | RD5R => Some (1, 64)
  | GD77 => Some (1, 76)
  | MD_380 => Some (1, 250)
  | MD_UV380 => Some (1, 250)
  end.

Definition name_limit (r : Radio) : Z :=
  match r with
  | D868 => 16
  | DMR6X2 => 16
  | RD5R => 16
  | GD77 => 16
  | MD_380 => 16
  | MD_UV380 => 16
  end.

Definition power (r : Radio) : dict Power str :=
  match r with
  | D868 =>
      [(HIGH, L "High"); (MED, L "Mid"); (LOW, L "Low"); (TURBO, L "Turbo")]
  | DMR6X2 =>
      [(HIGH, L "High"); (MED, L "Mid"); (LOW, L "Low"); (TURBO, L "Turbo")]
  | RD5R => [(HIGH, L "High"); (LOW, L "Low")]
  | GD77 => [(HIGH, L "High"); (LOW, L "Low")]
  | MD_380 => [(HIGH, L "High"); (LOW, L "Low")]
  | MD_UV380 => [(HIGH, L "High"); (MED, L "Mid"); (LOW, L "Low")]
  end.

Definition bandwidth (r : Radio) : dict Bandwidth str :=
  match r with
  | D868 => [(_125, L "12.5"); (_25, L "25")]
  | DMR6X2 => [(_125, L "12.5"); (_25, L "25")]
  | RD5R => [(_125, L "12.5"); (_25, L "25")]
  | GD77 => [(_125, L "12.5"); (_25, L "25")]
  | MD_380 => [(_125, L "12.5"); (_25, L "25")]
  | MD_UV380 => [(_125, L "12.5"); (_25, L "25")]
  end.

Definition plus_minus (b : bool) : str := if b then L "+" else L "-".

(** [Range = Union[int, Tuple[int, int]]] *)
Inductive Range : Type :=
| Ix (i : Z)
| Span (low high : Z).

Global Instance Range_eq_dec : EqDecision Range.
Proof. solve_decision. Defined.

(** Build a mapping of items to indexes in the [all_items] sequence.  The
    source's optional [key] is a function here.  When the source leaves it
    out the item itself is the dictionary key, under the equality and the
    hash of its class: the function handed over then sends an item to what
    that equality compares (the identity for integers and strings). *)
Definition items_by_index {A K} `{EqDecision K}
    (all_items : list A) (key : A -> K) (offset : Z) : dict K Z :=
  foldl (fun d '(ix, item) => Dict.set d (key item) (Z.of_nat ix + offset))
        [] (enumerate all_items).

(** One turn of the loop of [items_to_range_tuples]. *)
Definition range_step (selected_ranges : list Range) (selected_index : Z)
    : list Range :=
  match last selected_ranges with
  | None => selected_ranges ++ [Ix selected_index]      (* not selected_ranges *)
  | Some r =>
      let '(low_index, previous_index) :=
        match r with
        | Ix i => (i, i)
        | Span low high => (low, high)                   (* unpack range *)
        end in
      if previous_index + 1 =? selected_index then
        (* in range: selected_ranges[-1] = (low_index, selected_index) *)
        <[Nat.pred (length selected_ranges) := Span low_index selected_index]>
          selected_ranges
      else
        (* skipped some *)
        selected_ranges ++ [Ix selected_index]
  end.

(** The indexes of the selected items, in their order; an item that is not
    in the mapping raises [KeyError]. *)
Definition selected_indexes {A K} `{EqDecision K}
    (items_by_index : dict K Z) (selected_items : list A) (key : A -> K)
    : result (list Z) :=
  mapM (fun item => Dict.item items_by_index (key item)) selected_items.

(** Return a sequence of indexes and range tuples (start, end) of
    [selected_items] within [all_items].  The indexes are looked up first,
    all of them (the source drains the generator into a tuple), so a missing
    item raises before any range is built. *)
Definition items_to_range_tuples {A K} `{EqDecision K}
    (items_by_index : dict K Z) (selected_items : list A) (key : A -> K)
    : result (list Range) :=
  selected ← selected_indexes items_by_index selected_items key;
  Ok (foldl range_step [] selected).

(** Add [offset] to all values in [ranges]. *)
Definition offset_ranges (ranges : list Range) (offset : Z) : list Range :=
  map (fun rng_or_ix =>
         match rng_or_ix with
         | Span low high => Span (low + offset) (high + offset)
         | Ix i => Ix (i + offset)
         end) ranges.

Definition format_range (r : Range) : str :=
  match r with
  | Span low high => str_of_int low ++ L "-" ++ str_of_int high
  | Ix i => str_of_int i
  end.

Definition format_ranges (ranges : list Range) : str :=
  join (L ",") (map format_range ranges).

(** [format_ranges([limit])] as the documentation blocks call it: a limit
    that is [None] is shown by [str(None)]. *)
Definition format_limit (limit : option (Z * Z)) : str :=
  match limit with
  | Some (low, high) => format_ranges [Span low high]
  | None => join (L ",") [L "None"]
  end.

(* ================================================================== *)
(** * dzcb.output.dmrconfig: index lookup and tables *)
(* ================================================================== *)

Module CodeplugIndexLookup.
Section CodeplugIndexLookup.
Context `{M : DzcbModel}.

Record t : Type := {
  codeplug : Codeplug;
  offset : Z;
  contact : dict ContactKey Z;
  grouplist_id : dict Ident Z;
  scanlist_id : dict Ident Z;
  channel : dict ChannelKey Z
}.

(** The lookup with its four mappings left to their defaults.  Group lists
    and scan lists are looked up by their [_id]; contacts and channels are
    handed to [items_by_index] without a [key], so that the item itself is
    the dictionary key, under the equality of its class. *)
Definition new (codeplug : Codeplug) (offset : Z) : t :=
  {| codeplug := codeplug;
     offset := offset;
     contact := items_by_index (contacts codeplug) Contact_key offset;
     grouplist_id := items_by_index (grouplists codeplug) GroupList_id offset;
     scanlist_id := items_by_index (scanlists codeplug) ScanList_id offset;
     channel := items_by_index (channels codeplug) Channel_key offset |}.
End CodeplugIndexLookup.
End CodeplugIndexLookup.

Module Table.
Section Table.
Context `{M : DzcbModel}.

Record t : Type := {
  codeplug : Codeplug;
  radio : Radio;
  index : CodeplugIndexLookup.t
}.

Definition _index_default (codeplug : Codeplug) : CodeplugIndexLookup.t :=
  CodeplugIndexLookup.new codeplug 1.

(** A table with its index left to the default. *)
Definition new (codeplug : Codeplug) (radio : Radio) : t :=
  {| codeplug := codeplug; radio := radio; index := _index_default codeplug |}.

Definition docs (__doc__ : str) (replacements : dict str pyval) : result str :=
  text ← format (rstrip __doc__) replacements;
  Ok (replace (L "    #") (L "#") text).

Definition header (fmt : str) (field_names : list str) : result str :=
  format fmt (map (fun k => (k, PyStr k)) field_names).

Definition format_row {A} (fmt : str)
    (item_to_dict : t -> Z -> A -> result (dict str pyval))
    (self : t) (ix : Z) (item : A) : result str :=
  d ← item_to_dict self ix item;
  format fmt d.

Definition name_munge (self : t) (name : str) : str :=
  replace (L " ") (L "_") (slice_to name (name_limit (radio self))).

(** The pairs (row number, item) that [__iter__] hands to [format_row]:
    [ix + 1] for [ix, item in enumerate(items)]. *)
Definition numbered {A} (items : list A) : list (Z * A) :=
  map (fun '(ix, item) => (Z.of_nat ix + 1, item)) (enumerate items).

(** [tuple(table)]: every row, or the first exception. *)
Definition rows {A} (fmt : str)
    (item_to_dict : t -> Z -> A -> result (dict str pyval))
    (self : t) (yielded : list (Z * A)) : result (list str) :=
  mapM (fun '(ix, item) => format_row fmt item_to_dict self ix item) yielded.

(** [d.get(k, "-")] for an optional reference [k]. *)
Definition get_or_dash {K} `{EqDecision K} (d : dict K Z) (k : option K)
    : pyval :=
  match k with
  | Some k' =>
      match Dict.get d k' with
      | Some i => PyInt i
      | None => PyStr (L "-")
      end
  | None => PyStr (L "-")
  end.

(** [tone or "-"] *)
Definition tone_or_dash (tone : option str) : pyval :=
  match tone with
  | Some (c :: s) => PyStr (c :: s)
  | _ => PyStr (L "-")
  end.
End Table.
End Table.

Module AnalogChannelTable.
Section AnalogChannelTable.
Context `{M : DzcbModel}.

Definition __doc__ : str := L "
    # Table of analog channels.
    # 1) Channel number: {channel_limit}
    # 2) Name: up to {name_limit} characters, use '_' instead of space
    # 3) Receive frequency in MHz
    # 4) Transmit frequency or +/- offset in MHz
    # 5) Transmit power: {power}
    # 6) Scan list: - or index
    # 7) Transmit timeout timer: (unused)
    # 8) Receive only: -, +
    # 9) Admit criteria: -, Free, Tone
    # 10) Squelch level: Normal (unused)
    # 11) Guard tone for receive, or '-' to disable
    # 12) Guard tone for transmit, or '-' to disable
    # 13) Bandwidth in kHz: {bandwidth}
    ".

Definition field_names : list str :=
  [ L "Analog"; L "Name"; L "Receive"; L "Transmit"; L "Power"; L "Scan";
    L "TOT"; L "RO"; L "Admit"; L "Squelch"; L "RxTone"; L "TxTone";
    L "Width" ].

Definition fmt : str :=
  L "{Analog:6} {Name:16} {Receive:8} {Transmit:8} {Power:5} {Scan:4} {TOT:3} {RO:2} {Admit:5} {Squelch:7} {RxTone:6} {TxTone:6} {Width}".

(** The values of the row are computed in the order of the keywords, so
    that the first one that raises decides the exception: the sum of the
    frequency and the offset (Transmit), then the power, then the
    bandwidth (Width). *)
Definition item_to_dict (self : Table.t) (index : Z) (ch : AnalogChannel)
    : result (dict str pyval) :=
  transmit ← add_offset (a_frequency ch) (a_offset ch);
  p ← Power_flattened (a_power ch) (Dict.keys (power (Table.radio self)));
  w ← Bandwidth_flattened (a_bandwidth ch)
        (Dict.keys (bandwidth (Table.radio self)));
  Ok [ (L "Analog", PyInt index);
       (L "Name", PyStr (Table.name_munge self (a_short_name ch)));
       (L "Receive", PyShown (Number_str (a_frequency ch)));
       (L "Transmit", PyShown (Number_str transmit));
       (L "Power", PyStr (Power_value p));
       (L "Scan",
         Table.get_or_dash
           (CodeplugIndexLookup.scanlist_id (Table.index self))
           (a_scanlist ch));
       (L "TOT", PyInt 90);
       (L "RO", PyStr (plus_minus (a_rx_only ch)));
       (L "Admit", PyStr (L "Free"));
       (L "Squelch", PyStr (L "Normal"));
       (L "RxTone", Table.tone_or_dash (a_tone_decode ch));
       (L "TxTone", Table.tone_or_dash (a_tone_encode ch));
       (L "Width", PyStr (Bandwidth_value w)) ].

Definition docs (self : Table.t) : result str :=
  Table.docs __doc__
    [ (L "channel_limit", PyStr (format_limit (channel_limit (Table.radio self))));
      (L "name_limit", PyInt (name_limit (Table.radio self)));
      (L "power",
        PyStr (join (L ", ")
                 (map Power_value (Dict.keys (power (Table.radio self))))));
      (L "bandwidth",
        PyStr (join (L ", ")
                 (map Bandwidth_value
                    (Dict.keys (bandwidth (Table.radio self)))))) ].

Definition header : result str := Table.header fmt field_names.

(** [__iter__]: the analog channels, numbered by their place among all
    channels. *)
Definition yielded (self : Table.t) : list (Z * AnalogChannel) :=
  omap (fun '(ix, ch) =>
          match ch with
          | Analog a => Some (Z.of_nat ix + 1, a)
          | Digital _ => None                           (* continue *)
          end)
       (enumerate (channels (Table.codeplug self))).

Definition rows (self : Table.t) : result (list str) :=
  Table.rows fmt item_to_dict self (yielded self).
End AnalogChannelTable.
End AnalogChannelTable.

Module DigitalChannelTable.
Section DigitalChannelTable.
Context `{M : DzcbModel}.

Definition __doc__ : str := L "
    # Table of digital channels.
    # 1) Channel number: {channel_limit}
    # 2) Name: up to {name_limit} characters, use '_' instead of space
    # 3) Receive frequency in MHz
    # 4) Transmit frequency or +/- offset in MHz
    # 5) Transmit power: {power}
    # 6) Scan list: - or index in Scanlist table
    # 7) Transmit timeout timer: (unused)
    # 8) Receive only: -, +
    # 9) Admit criteria: -, Free, Color, NColor
    # 10) Color code: 0, 1, 2, 3... 15
    # 11) Time slot: 1 or 2
    # 12) Receive group list: - or index in Grouplist table
    # 13) Contact for transmit: - or index in Contacts table
    ".

Definition field_names : list str :=
  [ L "Digital"; L "Name"; L "Receive"; L "Transmit"; L "Power"; L "Scan";
    L "TOT"; L "RO"; L "Admit"; L "Color"; L "Slot"; L "RxGL";
    L "TxContact" ].

Definition fmt : str :=
  L "{Digital:7} {Name:16} {Receive:8} {Transmit:8} {Power:5} {Scan:4} {TOT:3} {RO:2} {Admit:5} {Color:5} {Slot:4} {RxGL:4} {TxContact}".

(** The values of the row are computed in the order of the keywords, so
    that the first one that raises decides the exception: the sum of the
    frequency and the offset (Transmit), then the power, then the timeslot
    of the talkgroup (Slot). *)
Definition item_to_dict (self : Table.t) (index : Z) (ch : DigitalChannel)
    : result (dict str pyval) :=
  transmit ← add_offset (d_frequency ch) (d_offset ch);
  p ← Power_flattened (d_power ch) (Dict.keys (power (Table.radio self)));
  slot ← match d_talkgroup ch with
         | Some tg => Ok (Contact_timeslot tg)
         | None => Err AttributeError
         end;
  Ok [ (L "Digital", PyInt index);
       (L "Name", PyStr (Table.name_munge self (d_short_name ch)));
       (L "Receive", PyShown (Number_str (d_frequency ch)));
       (L "Transmit", PyShown (Number_str transmit));
       (L "Power", PyStr (Power_value p));
       (L "Scan",
         Table.get_or_dash
           (CodeplugIndexLookup.scanlist_id (Table.index self))
           (d_scanlist ch));
       (L "TOT", PyInt 90);
       (L "RO", PyStr (plus_minus (d_rx_only ch)));
       (L "Admit", PyStr (L "Color"));
       (L "Color", PyInt (d_color_code ch));
       (L "Slot", PyInt slot);
       (L "RxGL",
         Table.get_or_dash
           (CodeplugIndexLookup.grouplist_id (Table.index self))
           (d_grouplist ch));
       (L "TxContact",
         Table.get_or_dash
           (CodeplugIndexLookup.contact (Table.index self))
           (Contact_key <$> d_talkgroup ch)) ].

Definition docs (self : Table.t) : result str :=
  Table.docs __doc__
    [ (L "channel_limit", PyStr (format_limit (channel_limit (Table.radio self))));
      (L "name_limit", PyInt (name_limit (Table.radio self)));
      (L "power",
        PyStr (join (L ", ")
                 (map Power_value (Dict.keys (power (Table.radio self)))))) ].

Definition header : result str := Table.header fmt field_names.

(** [__iter__]: the digital channels that have a talkgroup, numbered by
    their place among all channels. *)
Definition yielded (self : Table.t) : list (Z * DigitalChannel) :=
  omap (fun '(ix, ch) =>
          match ch with
          | Digital d =>
              match d_talkgroup d with
              | Some _ => Some (Z.of_nat ix + 1, d)
              | None => None                            (* continue *)
              end
          | Analog _ => None                            (* continue *)
          end)
       (enumerate (channels (Table.codeplug self))).

Definition rows (self : Table.t) : result (list str) :=
  Table.rows fmt item_to_dict self (yielded self).
End DigitalChannelTable.
End DigitalChannelTable.

Module ZoneTable.
Section ZoneTable.
Context `{M : DzcbModel}.

Definition __doc__ : str := L "
    # Table of channel zones.
    # 1) Zone number: {zone_limit}
    # 2) Name: up to 16 characters, use '_' instead of space
    # 3) List of channels: numbers and ranges (N-M) separated by comma
    ".

Definition field_names : list str := [L "Zone"; L "Name"; L "Channels"].
Definition fmt : str := L "{Zone:4} {Name:16} {Channels}".

Definition item_to_dict (self : Table.t) (index : Z) (zone : Zone)
    : result (dict str pyval) :=
  ranges ← items_to_range_tuples
             (CodeplugIndexLookup.channel (Table.index self))
             (Zone_unique_channels zone) Channel_key;
  Ok [ (L "Zone", PyInt index);
       (L "Name", PyStr (Table.name_munge self (Zone_name zone)));
       (L "Channels", PyStr (format_ranges ranges)) ].

Definition docs (self : Table.t) : result str :=
  Table.docs __doc__
    [ (L "zone_limit", PyStr (format_limit (zone_limit (Table.radio self)))) ].

Definition header : result str := Table.header fmt field_names.

(** [Table.__iter__] over [codeplug.zones]. *)
Definition yielded (self : Table.t) : list (Z * Zone) :=
  Table.numbered (zones (Table.codeplug self)).

Definition rows (self : Table.t) : result (list str) :=
  Table.rows fmt item_to_dict self (yielded self).
End ZoneTable.
End ZoneTable.

Module ScanlistTable.
Section ScanlistTable.
Context `{M : DzcbModel}.

Definition __doc__ : str := L "
    # Table of scan lists.
    # 1) Scan list number: {scanlist_limit}
    # 2) Name: up to 16 characters, use '_' instead of space
    # 3) Priority channel 1: -, Curr or index
    # 4) Priority channel 2: -, Curr or index
    # 5) Designated transmit channel: Sel or Last
    # 6) List of channels: numbers and ranges (N-M) separated by comma
    ".

Definition field_names : list str :=
  [L "Scanlist"; L "Name"; L "PCh1"; L "PCh2"; L "TxCh"; L "Channels"].
Definition fmt : str :=
  L "{Scanlist:8} {Name:16} {PCh1:4} {PCh2:4} {TxCh:4} {Channels}".

Definition item_to_dict (self : Table.t) (index : Z) (scanlist : ScanList)
    : result (dict str pyval) :=
  ranges ← items_to_range_tuples
             (CodeplugIndexLookup.channel (Table.index self))
             (ScanList_channels scanlist) Channel_key;
  Ok [ (L "Scanlist", PyInt index);
       (L "Name", PyStr (Table.name_munge self (ScanList_name scanlist)));
       (L "PCh1", PyStr (L "Curr"));
       (L "PCh2", PyStr (L "-"));
       (L "TxCh", PyStr (L "Last"));
       (L "Channels", PyStr (format_ranges ranges)) ].

Definition docs (self : Table.t) : result str :=
  Table.docs __doc__
    [ (L "scanlist_limit",
        PyStr (format_limit (scanlist_limit (Table.radio self)))) ].

Definition header : result str := Table.header fmt field_names.

(** [Table.__iter__] over [codeplug.scanlists]. *)
Definition yielded (self : Table.t) : list (Z * ScanList) :=
  Table.numbered (scanlists (Table.codeplug self)).

Definition rows (self : Table.t) : result (list str) :=
  Table.rows fmt item_to_dict self (yielded self).
End ScanlistTable.
End ScanlistTable.

Module ContactsTable.
Section ContactsTable.
Context `{M : DzcbModel}.

Definition __doc__ : str := L "
    # Table of contacts.
    # 1) Contact number: {contact_limit}
    # 2) Name: up to 16 characters, use '_' instead of space
    # 3) Call type: Group, Private, All
    # 4) Call ID: 1...16777215
    # 5) Call receive tone: -, +
    ".

Definition field_names : list str :=
  [L "Contact"; L "Name"; L "Type"; L "ID"; L "RxTone"].
Definition fmt : str := L "{Contact:8} {Name:16} {Type:7} {ID:8} {RxTone}".

Definition item_to_dict (self : Table.t) (index : Z) (contact : Contact)
    : result (dict str pyval) :=
  Ok [ (L "Contact", PyInt index);
       (L "Name", PyStr (Table.name_munge self (Contact_name contact)));
       (L "Type", PyStr (Contact_kind contact));
       (L "ID", PyInt (Contact_dmrid contact));
       (L "RxTone", PyStr (L "-")) ].

Definition docs (self : Table.t) : result str :=
  Table.docs __doc__
    [ (L "contact_limit",
        PyStr (format_limit (contact_limit (Table.radio self)))) ].

Definition header : result str := Table.header fmt field_names.

(** [Table.__iter__] over [codeplug.contacts]. *)
Definition yielded (self : Table.t) : list (Z * Contact) :=
  Table.numbered (contacts (Table.codeplug self)).

Definition rows (self : Table.t) : result (list str) :=
  Table.rows fmt item_to_dict self (yielded self).
End ContactsTable.
End ContactsTable.

Module GrouplistTable.
Section GrouplistTable.
Context `{M : DzcbModel}.

Definition __doc__ : str := L "
    # Table of group lists.
    # 1) Group list number: {grouplist_limit}
    # 2) Name: up to 16 characters, use '_' instead of space
    # 3) List of contacts: numbers and ranges (N-M) separated by comma
    ".

Definition field_names : list str := [L "Grouplist"; L "Name"; L "Contacts"].
Definition fmt : str := L "{Grouplist:10} {Name:16} {Contacts}".

Definition item_to_dict (self : Table.t) (index : Z) (grouplist : GroupList)
    : result (dict str pyval) :=
  ranges ← items_to_range_tuples
             (CodeplugIndexLookup.contact (Table.index self))
             (GroupList_contacts grouplist) Contact_key;
  Ok [ (L "Grouplist", PyInt index);
       (L "Name", PyStr (Table.name_munge self (GroupList_name grouplist)));
       (L "Contacts", PyStr (format_ranges ranges)) ].

Definition docs (self : Table.t) : result str :=
  Table.docs __doc__
    [ (L "grouplist_limit",
        PyStr (format_limit (grouplist_limit (Table.radio self)))) ].

Definition header : result str := Table.header fmt field_names.

(** [Table.__iter__] over [codeplug.grouplists]. *)
Definition yielded (self : Table.t) : list (Z * GroupList) :=
  Table.numbered (grouplists (Table.codeplug self)).

Definition rows (self : Table.t) : result (list str) :=
  Table.rows fmt item_to_dict self (yielded self).
End GrouplistTable.
End GrouplistTable.

(* ================================================================== *)
(** * dzcb.output.dmrconfig: the template and the rendered codeplug *)
(* ================================================================== *)

Module DmrConfigTemplate.

Record t : Type := {
  header : list str;
  footer : list str;
  radio : option Radio
}.

(** [cls()]: both lists empty, no radio. *)
Definition empty : t := {| header := []; footer := []; radio := None |}.

Definition marker : str := L "Radio: ".

(** The condition of the [elif]: the line names one of the two metadata
    entries, in any case of letters. *)
Definition is_metadata (tline : str) : bool :=
  contains (L "last programmed date") (lower tline)
  || contains (L "cps software version") (lower tline).

(** The body of the loop of [read_template] for one line. *)
Definition read_line (t0 : t) (tline : str) : result t :=
  match radio t0 with
  | None =>
      let t1 := {| header := header t0 ++ [tline];
                   footer := footer t0;
                   radio := radio t0 |} in
      let '(_, match_, radio_type) := partition tline marker in
      match match_ with
      | _ :: _ =>
          r ← Radio_of_value radio_type;
          Ok {| header := header t1; footer := footer t1; radio := Some r |}
      | [] => Ok t1
      end
  | Some _ =>
      if is_metadata tline
      then Ok {| header := header t0 ++ [tline];
                 footer := footer t0;
                 radio := radio t0 |}
      else Ok {| header := header t0;
                 footer := footer t0 ++ [tline];
                 radio := radio t0 |}
  end.

(** The loop over the lines, then the check that a radio was found and the
    blank line added to the header. *)
Definition read_lines (lines : list str) : result t :=
  t1 ← foldM read_line empty lines;
  match radio t1 with
  | None => Err (TemplateError (L "template should specify a radio type"))
  | Some _ =>
      Ok {| header := header t1 ++ [ [] ];
            footer := footer t1;
            radio := radio t1 |}
  end.

Definition read_template (template : str) : result t :=
  read_lines (splitlines template).

End DmrConfigTemplate.

Module Dmrconfig_Codeplug.
Section Dmrconfig_Codeplug.
Context `{M : DzcbModel}.

Record t : Type := {
  table : Table.t;
  template : option DmrConfigTemplate.t;
  radio : Radio;
  digital : Table.t;
  analog : Table.t;
  zone : Table.t;
  scanlist : Table.t;
  contact : Table.t;
  grouplist : Table.t
}.

(** [table_type.evolve_from(self.table, radio=self.radio)]: the fields of
    the table, with the radio replaced. *)
Definition evolve_from (table : Table.t) (radio : Radio) : Table.t :=
  {| Table.codeplug := Table.codeplug table;
     Table.radio := radio;
     Table.index := Table.index table |}.

(** The construction of a [Dmrconfig_Codeplug] from a table, an optional
    template text and an optional radio, the six tables left to their
    defaults.  The converter reads the template first; a radio that is left
    out is the template's; without either, the validator of [radio]
    refuses [None]. *)
Definition new (table : Table.t) (template : option str)
    (radio : option Radio) : result t :=
  template' ← match template with
              | Some text =>
                  tpl ← DmrConfigTemplate.read_template text; Ok (Some tpl)
              | None => Ok None
              end;
  radio' ← match radio with
           | Some r => Ok r
           | None =>
               match template' ≫= DmrConfigTemplate.radio with
               | Some r => Ok r
               | None => Err TypeError
               end
           end;
  Ok {| table := table;
        template := template';
        radio := radio';
        digital := evolve_from table radio';
        analog := evolve_from table radio';
        zone := evolve_from table radio';
        scanlist := evolve_from table radio';
        contact := evolve_from table radio';
        grouplist := evolve_from table radio' |}.

Definition version_line : str :=
  L "# Written by dzcb.output.dmrconfig v. " ++ __version__.

(** The tuple of lines that [render] returns.  (The listing of the source
    ends on the rows of the zone table; the parenthesis that closes the
    tuple is all that follows.) *)
Definition render (self : t) : result (list str) :=
  analog_docs ← AnalogChannelTable.docs (analog self);
  analog_header ← AnalogChannelTable.header;
  analog_rows ← AnalogChannelTable.rows (analog self);
  digital_docs ← DigitalChannelTable.docs (digital self);
  digital_header ← DigitalChannelTable.header;
  digital_rows ← DigitalChannelTable.rows (digital self);
  contact_docs ← ContactsTable.docs (contact self);
  contact_header ← ContactsTable.header;
  contact_rows ← ContactsTable.rows (contact self);
  grouplist_docs ← GrouplistTable.docs (grouplist self);
  grouplist_header ← GrouplistTable.header;
  grouplist_rows ← GrouplistTable.rows (grouplist self);
  scanlist_docs ← ScanlistTable.docs (scanlist self);
  scanlist_header ← ScanlistTable.header;
  scanlist_rows ← ScanlistTable.rows (scanlist self);
  zone_docs ← ZoneTable.docs (zone self);
  zone_header ← ZoneTable.header;
  zone_rows ← ZoneTable.rows (zone self);
  Ok ([version_line; analog_docs; analog_header]
      ++ analog_rows
      ++ [digital_docs; digital_header]
      ++ digital_rows
      ++ [contact_docs; contact_header]
      ++ contact_rows
      ++ [grouplist_docs; grouplist_header]
      ++ grouplist_rows
      ++ [scanlist_docs; scanlist_header]
      ++ scanlist_rows
      ++ [zone_docs; zone_header]
      ++ zone_rows).

Definition render_template (self : t) : result str :=
  match template self with
  | None => Err AttributeError
  | Some tpl =>
      body ← render self;
      Ok (join newline
            (DmrConfigTemplate.header tpl ++ body ++ DmrConfigTemplate.footer tpl))
  end.
End Dmrconfig_Codeplug.
End Dmrconfig_Codeplug.

End Dmrconfig.

(* ================================================================== *)
(** * Index ranges: expansion and runs *)
(* ================================================================== *)

Module RangeSpec.
Import Py Dmrconfig.

(** What a token stands for: a bare index for itself, a pair (low, high) for
    low, low+1, ..., high. *)
Definition expand (r : Range) : list Z :=
  match r with
  | Ix i => [i]
  | Span low high => seqZ low (high - low + 1)
  end.

Definition expand_all (ranges : list Range) : list Z :=
  concat (map expand ranges).

(** The highest index of a token, which is the last one it stands for. *)
Definition high_of (r : Range) : Z :=
  match r with
  | Ix i => i
  | Span _ high => high
  end.

(** A pair built by the compressor is strictly ascending. *)
Definition well_formed (r : Range) : Prop :=
  match r with
  | Ix _ => True
  | Span low high => low < high
  end.

(** The number of maximal runs of consecutive ascending values in [l]. *)
Fixpoint runs (l : list Z) : nat :=
  match l with
  | [] => 0
  | a :: l' =>
      match l' with
      | [] => 1
      | b :: _ => if a + 1 =? b then runs l' else S (runs l')
      end
  end.

(** [l] has two neighbours [a], [a + 1]: a run of at least two values. *)
Definition has_run (l : list Z) : Prop :=
  exists (i : nat) (a : Z), l !! i = Some a /\ l !! S i = Some (a + 1).

(** What the scan has built after reading [l]. *)
Definition scanned (l : list Z) (ranges : list Range) : Prop :=
  expand_all ranges = l
  /\ Forall well_formed ranges
  /\ high_of <$> last ranges = last l
  /\ length ranges = runs l.

End RangeSpec.

(* ================================================================== *)
(** * Tail codes *)
(* ================================================================== *)

Module MungeSpec.
Import Py Munge.

(** Every character is one of A to Z. *)
Definition uppercase (letters : str) : Prop :=
  Forall (fun c => is_AZ c = true) letters.

(** The last character is the digit 1 or the digit 2. *)
Definition ends_in_12 (s : str) : Prop :=
  exists c, last s = Some c /\ is_12 c = true.

(** A character that a tail code can hold: 1, 2, the space, A to Z. *)
Definition tail_char (c : ascii) : bool :=
  is_12 c || Ascii.eqb c " " || is_AZ c.

(** A replacement that cannot reach into a tail code: what it looks for
    ends in a character no tail code holds, and what it puts in is not
    empty and holds neither 1 nor 2. *)
Definition tail_safe (entry : str * str) : bool :=
  let '(old, new) := entry in
  match last old, new with
  | Some z, _ :: _ => negb (tail_char z) && forallb (fun c => negb (is_12 c)) new
  | _, _ => false
  end.

(** The digit 1 or 2 that ends [s], if there is one: what [[12]?] takes
    when the space of a tail code follows [s]. *)
Definition digit_before (s : str) : str :=
  match last s with
  | Some c => if is_12 c then [c] else []
  | None => []
  end.

End MungeSpec.

(* ================================================================== *)
(** * Occurrences of a marker in a line *)
(* ================================================================== *)

Module TemplateSpec.
Import Py Dmrconfig.

(** [sep] occurs somewhere in [s]. *)
Definition occurs (sep s : str) : Prop :=
  exists a b, s = a ++ sep ++ b.

(** [a] is what comes before the first occurrence of [sep] in [s], and [b]
    what comes after it. *)
Definition first_occurrence (sep a b s : str) : Prop :=
  s = a ++ sep ++ b
  /\ forall a' b', s = a' ++ sep ++ b' -> (length a <= length a')%nat.

End TemplateSpec.

(* ================================================================== *)
(** * The six tables of a rendered codeplug, by kind *)
(* ================================================================== *)

Module RenderSpec.
Import Py Format Model Dmrconfig.

Inductive kind : Type :=
| analog_kind | digital_kind | contact_kind | grouplist_kind | scanlist_kind
| zone_kind.

(** The order in which [render] goes through the tables. *)
Definition fixed_order : list kind :=
  [analog_kind; digital_kind; contact_kind; grouplist_kind; scanlist_kind;
   zone_kind].

(** The limit that the documentation of a table of kind [k] quotes. *)
Definition limit_of (k : kind) (r : Radio) : option (Z * Z) :=
  match k with
  | analog_kind | digital_kind => channel_limit r
  | contact_kind => contact_limit r
  | grouplist_kind => grouplist_limit r
  | scanlist_kind => scanlist_limit r
  | zone_kind => zone_limit r
  end.

Section RenderSpec.
Context `{M : DzcbModel}.

Definition table_of (self : Dmrconfig_Codeplug.t) (k : kind) : Table.t :=
  match k with
  | analog_kind => Dmrconfig_Codeplug.analog self
  | digital_kind => Dmrconfig_Codeplug.digital self
  | contact_kind => Dmrconfig_Codeplug.contact self
  | grouplist_kind => Dmrconfig_Codeplug.grouplist self
  | scanlist_kind => Dmrconfig_Codeplug.scanlist self
  | zone_kind => Dmrconfig_Codeplug.zone self
  end.

Definition docs_of (k : kind) (table : Table.t) : result str :=
  match k with
  | analog_kind => AnalogChannelTable.docs table
  | digital_kind => DigitalChannelTable.docs table
  | contact_kind => ContactsTable.docs table
  | grouplist_kind => GrouplistTable.docs table
  | scanlist_kind => ScanlistTable.docs table
  | zone_kind => ZoneTable.docs table
  end.

Definition header_of (k : kind) : result str :=
  match k with
  | analog_kind => AnalogChannelTable.header
  | digital_kind => DigitalChannelTable.header
  | contact_kind => ContactsTable.header
  | grouplist_kind => GrouplistTable.header
  | scanlist_kind => ScanlistTable.header
  | zone_kind => ZoneTable.header
  end.

Definition rows_of (k : kind) (table : Table.t) : result (list str) :=
  match k with
  | analog_kind => AnalogChannelTable.rows table
  | digital_kind => DigitalChannelTable.rows table
  | contact_kind => ContactsTable.rows table
  | grouplist_kind => GrouplistTable.rows table
  | scanlist_kind => ScanlistTable.rows table
  | zone_kind => ZoneTable.rows table
  end.

(** The lines of one table: documentation block, column header, rows. *)
Definition section_of (self : Dmrconfig_Codeplug.t) (k : kind)
    : result (list str) :=
  docs ← docs_of k (table_of self k);
  header ← header_of k;
  rows ← rows_of k (table_of self k);
  Ok (docs :: header :: rows).

(** The layout in the words of the specification: for each kind, a
    version-stamped comment line, the documentation block, the column
    header and the rows. *)
Definition render_as_stated (self : Dmrconfig_Codeplug.t) : result (list str) :=
  sections ← mapM (fun k =>
                     lines ← section_of self k;
                     Ok (Dmrconfig_Codeplug.version_line :: lines))
                  fixed_order;
  Ok (concat sections).




(** The number of lines equal to [line]. *)
Definition count_line (line : str) (lines : list str) : nat :=
  length (List.filter (fun l => bool_decide (l = line)) lines).





End RenderSpec.
End RenderSpec.

(* ================================================================== *)
(** * Further notions on tokens and row numbers *)
(* ================================================================== *)

Module ExtraSpec.
Import Py Dmrconfig RangeSpec.

(** The lowest index of a token. *)
Definition low_of (r : Range) : Z :=
  match r with
  | Ix i => i
  | Span low _ => low
  end.

(** No token could be joined with the one after it into one range. *)
Definition separated (ranges : list Range) : Prop :=
  forall before r1 r2 after,
    ranges = before ++ r1 :: r2 :: after -> high_of r1 + 1 <> low_of r2.

(** [index] is the last place of [all_items], counted from 0, that holds an
    item with the key [k]. *)
Definition last_place {A K} (all_items : list A) (key : A -> K) (k : K)
    (index : nat) : Prop :=
  (exists item, all_items !! index = Some item /\ key item = k)
  /\ forall later item,
       (index < later)%nat -> all_items !! later = Some item -> key item <> k.

(** The replacements [entries] made one after the other, first to last. *)
Definition replace_all (entries : list (str * str)) (s : str) : str :=
  foldl (fun s entry => replace entry.1 entry.2 s) s entries.

(** A replacement that puts in no more than it takes out. *)
Definition shrinking (entry : str * str) : bool :=
  match entry.1 with
  | [] => false
  | _ :: _ => (length entry.2 <=? length entry.1)%nat
  end.

(** A space becomes an underscore. *)
Definition underscore (c : ascii) : ascii :=
  if Ascii.eqb c " " then "_"%char else c.


End ExtraSpec.

(* ================================================================== *)
(** * A concrete model and small codeplugs, for the examples below *)
(* ================================================================== *)

Module Example.
Import Py Format Model Dmrconfig.

(** Five items indexed from 1, and a selection that skips the fourth. *)
Definition five_items : list Z := [10; 20; 30; 40; 50].
Definition five_by_index : dict Z Z := items_by_index five_items id 1.
Definition four_selected : list Z := [10; 20; 30; 50].

(** Modelled from the spec: the parts of [dzcb.model] that the sources of
    the output filter do not hold, as the examples use them.  Identifiers
    and frequencies are integers; an enumeration value is shown by its name;
    [flattened] rejects a value that the radio's table does not hold
    ("values absent from that table are rejected, not silently dropped"). *)
Definition example_base : DzcbBase := {|
  Ident := Z;
  Number := Z;
  Number_add := Z.add;
  Number_str := str_of_int;
  Power_value p :=
    match p with
    | HIGH => L "High" | MED => L "Medium" | LOW => L "Low" | TURBO => L "Turbo"
    end;
  Power_flattened p allowed :=
    if bool_decide (p ∈ allowed) then Ok p else Err (ValueError (L "power"));
  Bandwidth_value b := match b with _125 => L "12.5" | _25 => L "25" end;
  Bandwidth_flattened b allowed :=
    if bool_decide (b ∈ allowed) then Ok b else Err (ValueError (L "bandwidth"));
  __version__ := L "0.3.1"
|}.

(** Modelled from the spec: the equality of contacts and of channels, which
    [dzcb.model] defines.  The specification keeps the identity of an entity
    apart from its display name: two contacts, or two channels, that differ
    by the name only are one dictionary key; any other attribute tells them
    apart. *)
#[global] Instance example_model : DzcbModel := {|
  DzcbModel_base := example_base;
  Contact_key c := (Contact_kind c, Contact_dmrid c, Contact_timeslot c);
  Channel_key ch :=
    match ch with
    | Analog a =>
        inl (a_frequency a, a_offset a, a_power a, a_scanlist a, a_rx_only a,
             a_tone_decode a, a_tone_encode a, a_bandwidth a)
    | Digital d =>
        inr (d_frequency d, d_offset d, d_power d, d_scanlist d, d_rx_only d,
             d_color_code d,
             (fun c => (Contact_kind c, Contact_dmrid c, Contact_timeslot c))
               <$> d_talkgroup d,
             d_grouplist d)
    end
|}.

(** The codeplug with nothing in it, and a table over it. *)
Definition empty_codeplug : Codeplug :=
  {| contacts := []; channels := []; grouplists := []; scanlists := [];
     zones := [] |}.
Definition empty_table : Table.t := Table.new empty_codeplug D868.

(** One talkgroup, one group list that holds it, one digital channel that
    calls it, and one zone with that channel. *)
Definition alice : Contact :=
  {| Contact_name := L "Alice"; Contact_kind := L "Group";
     Contact_dmrid := 3100; Contact_timeslot := 1 |}.

Definition channel_one : DigitalChannel :=
  {| d_short_name := L "Chan 1"; d_frequency := 440; d_offset := Some 5;
     d_power := HIGH; d_scanlist := None; d_rx_only := false;
     d_color_code := 1; d_talkgroup := Some alice; d_grouplist := Some 7 |}.

Definition small_codeplug : Codeplug :=
  {| contacts := [alice];
     channels := [Digital channel_one];
     grouplists :=
       [ {| GroupList_id := 7; GroupList_name := L "GL1";
            GroupList_contacts := [alice] |} ];
     scanlists := [];
     zones :=
       [ {| Zone_name := L "Zone1";
            Zone_unique_channels := [Digital channel_one] |} ] |}.

Definition small_table : Table.t := Table.new small_codeplug D868.




(** A channel without an offset. *)
Definition channel_no_offset : DigitalChannel :=
  {| d_short_name := L "Chan 2"; d_frequency := 441; d_offset := None;
     d_power := HIGH; d_scanlist := None; d_rx_only := false;
     d_color_code := 1; d_talkgroup := Some alice; d_grouplist := None |}.

(** An analog channel between two digital ones, the second of which calls a
    talkgroup that is not among the contacts; a scan list and a zone that
    hold the three of them. *)
Definition bob : Contact :=
  {| Contact_name := L "Bob"; Contact_kind := L "Group";
     Contact_dmrid := 3101; Contact_timeslot := 2 |}.

Definition simplex : AnalogChannel :=
  {| a_short_name := L "Simplex"; a_frequency := 146; a_offset := Some 0;
     a_power := LOW; a_scanlist := Some 3; a_rx_only := false;
     a_tone_decode := None; a_tone_encode := None; a_bandwidth := _25 |}.

Definition channel_three : DigitalChannel :=
  {| d_short_name := L "Chan 3"; d_frequency := 442; d_offset := Some 5;
     d_power := LOW; d_scanlist := Some 3; d_rx_only := true;
     d_color_code := 2; d_talkgroup := Some bob; d_grouplist := Some 7 |}.

Definition mixed_codeplug : Codeplug :=
  {| contacts := [alice];
     channels := [Digital channel_one; Analog simplex; Digital channel_three];
     grouplists :=
       [ {| GroupList_id := 7; GroupList_name := L "GL1";
            GroupList_contacts := [alice] |} ];
     scanlists :=
       [ {| ScanList_id := 3; ScanList_name := L "Scan";
            ScanList_channels :=
              [Digital channel_one; Analog simplex; Digital channel_three] |} ];
     zones :=
       [ {| Zone_name := L "Zone1";
            Zone_unique_channels :=
              [Digital channel_one; Analog simplex; Digital channel_three] |} ] |}.

Definition mixed_table : Table.t := Table.new mixed_codeplug D868.




(** The rendered codeplugs that [Dmrconfig_Codeplug.new] builds from a table
    and a radio when no template is given. *)
Definition without_template (table : Table.t) (radio : Radio)
    : Dmrconfig_Codeplug.t :=
  {| Dmrconfig_Codeplug.table := table;
     Dmrconfig_Codeplug.template := None;
     Dmrconfig_Codeplug.radio := radio;
     Dmrconfig_Codeplug.digital := Dmrconfig_Codeplug.evolve_from table radio;
     Dmrconfig_Codeplug.analog := Dmrconfig_Codeplug.evolve_from table radio;
     Dmrconfig_Codeplug.zone := Dmrconfig_Codeplug.evolve_from table radio;
     Dmrconfig_Codeplug.scanlist := Dmrconfig_Codeplug.evolve_from table radio;
     Dmrconfig_Codeplug.contact := Dmrconfig_Codeplug.evolve_from table radio;
     Dmrconfig_Codeplug.grouplist := Dmrconfig_Codeplug.evolve_from table radio |}.

Definition small_rendered : Dmrconfig_Codeplug.t :=
  without_template small_table D868.

(** The small codeplug rendered into a template with one header line and
    one footer line. *)
Definition small_template : DmrConfigTemplate.t :=
  {| DmrConfigTemplate.header := [L "Radio: Anytone AT-D868UV"; []];
     DmrConfigTemplate.footer := [L "Intro Line 1: hello"];
     DmrConfigTemplate.radio := Some D868 |}.

Definition small_in_template : Dmrconfig_Codeplug.t :=
  {| Dmrconfig_Codeplug.table := small_table;
     Dmrconfig_Codeplug.template := Some small_template;
     Dmrconfig_Codeplug.radio := D868;
     Dmrconfig_Codeplug.digital := Dmrconfig_Codeplug.evolve_from small_table D868;
     Dmrconfig_Codeplug.analog := Dmrconfig_Codeplug.evolve_from small_table D868;
     Dmrconfig_Codeplug.zone := Dmrconfig_Codeplug.evolve_from small_table D868;
     Dmrconfig_Codeplug.scanlist := Dmrconfig_Codeplug.evolve_from small_table D868;
     Dmrconfig_Codeplug.contact := Dmrconfig_Codeplug.evolve_from small_table D868;
     Dmrconfig_Codeplug.grouplist := Dmrconfig_Codeplug.evolve_from small_table D868 |}.

(** A template whose radio line does not start with the marker. *)
Definition template_my_radio : str := L "My Radio: TYT MD-380".

(** A template with a metadata line after the first line of the body. *)
Definition template_late_metadata : str := L "# dmrconfig template
Radio: TYT MD-380
Last Programmed Date: 2020-01-01
Intro Line 1: hello
CPS Software Version: 1.0
Intro Line 2: world".

(** A template that names no radio. *)
Definition template_no_radio : str := L "# dmrconfig template
Last Programmed Date: 2020-01-01".

(** A template whose first line with the marker is a remark, the line that
    names a known radio coming second. *)
Definition template_remark_first : str := L "# Radio: see the next line
Radio: TYT MD-380".

(** A template whose radio line names a radio that the enumeration does
    not hold. *)
Definition template_unknown_radio : str := L "# dmrconfig template
Radio: Yaesu FT-60
Last Programmed Date: 2020-01-01".

(** A template with two lines that each name a known radio. *)
Definition template_two_radios : str := L "Radio: TYT MD-380
Radio: Baofeng RD-5R".

End Example.

(* ================================================================== *)
(** * Properties of the range compressor *)
(* ================================================================== *)

Section RangeProofs.
Import Py Dmrconfig RangeSpec.

Lemma expand_all_snoc ranges r :
  expand_all (ranges ++ [r]) = expand_all ranges ++ expand r.
Proof.
  unfold expand_all. rewrite map_app, concat_app. simpl.
  by rewrite app_nil_r.
Qed.

Lemma runs_snoc l x :
  runs (l ++ [x]) =
    match last l with
    | None => 1%nat
    | Some p => if p + 1 =? x then runs l else S (runs l)
    end.
Proof.
  induction l as [|a [|b l'] IH]; [done | simpl; by destruct (a + 1 =? x) |].
  change ((a :: b :: l') ++ [x]) with (a :: (b :: l') ++ [x]).
  rewrite last_cons_cons.
  change (runs (a :: (b :: l') ++ [x])) with
    (if a + 1 =? b then runs ((b :: l') ++ [x]) else S (runs ((b :: l') ++ [x]))).
  rewrite IH.
  change (runs (a :: b :: l')) with
    (if a + 1 =? b then runs (b :: l') else S (runs (b :: l'))).
  destruct (last (b :: l')) as [p|] eqn:Hlast.
  - by destruct (a + 1 =? b), (p + 1 =? x).
  - by apply last_None in Hlast.
Qed.

Lemma runs_app_le l1 l2 : (runs (l1 ++ l2) <= runs l1 + runs l2)%nat.
Proof.
  induction l1 as [|a [|b l1'] IH]; [simpl; lia | |].
  - destruct l2 as [|c l2']; [simpl; lia |].
    change ([a] ++ c :: l2') with (a :: c :: l2').
    change (runs (a :: c :: l2')) with
      (if a + 1 =? c then runs (c :: l2') else S (runs (c :: l2'))).
    change (runs [a]) with 1%nat.
    destruct (a + 1 =? c); lia.
  - change ((a :: b :: l1') ++ l2) with (a :: b :: (l1' ++ l2)) in *.
    change (runs (a :: b :: (l1' ++ l2))) with
      (if a + 1 =? b then runs (b :: (l1' ++ l2)) else S (runs (b :: (l1' ++ l2)))).
    change (runs (a :: b :: l1')) with
      (if a + 1 =? b then runs (b :: l1') else S (runs (b :: l1'))).
    change ((b :: l1') ++ l2) with (b :: (l1' ++ l2)) in IH.
    destruct (a + 1 =? b); lia.
Qed.

Lemma runs_seqZ low n : (runs (seqZ low n) <= 1)%nat.
Proof.
  destruct (Z_le_gt_dec n 0) as [Hn|Hn]; [by rewrite seqZ_nil by lia; simpl; lia |].
  rewrite <- (Z2Nat.id n) by lia.
  induction (Z.to_nat n) as [|k IH]; [simpl; lia |].
  rewrite seqZ_S, runs_snoc.
  destruct (last (seqZ low (Z.of_nat k))) as [p|] eqn:Hlast; [|lia].
  rewrite last_lookup, length_seqZ in Hlast.
  apply lookup_seqZ in Hlast as [-> Hlt].
  destruct k as [|k']; [simpl in Hlt; lia |].
  replace (low + Z.of_nat (Nat.pred (Z.to_nat (Z.of_nat (S k')))) + 1)
    with (low + Z.of_nat (S k')) by lia.
  by rewrite Z.eqb_refl.
Qed.

Lemma runs_expand r : (runs (expand r) <= 1)%nat.
Proof. destruct r; [simpl; lia | apply runs_seqZ]. Qed.

(** Any tokens that expand to [l] are at least as many as the runs of [l]. *)
Lemma runs_expand_all ranges : (runs (expand_all ranges) <= length ranges)%nat.
Proof.
  induction ranges as [|r ranges IH]; [simpl; lia |].
  change (expand_all (r :: ranges)) with (expand r ++ expand_all ranges).
  pose proof (runs_app_le (expand r) (expand_all ranges)).
  pose proof (runs_expand r). simpl. lia.
Qed.

Lemma expand_extend r x :
  well_formed r -> high_of r + 1 = x ->
  expand (Span (match r with Ix i => i | Span low _ => low end) x)
  = expand r ++ [x].
Proof.
  intros Hwf <-. destruct r as [i|low high]; simpl in *.
  - replace (i + 1 - i + 1) with 2 by lia.
    rewrite seqZ_cons, seqZ_cons, seqZ_nil by lia.
    by replace (Z.succ i) with (i + 1) by lia.
  - replace (high + 1 - low + 1) with (Z.of_nat (S (Z.to_nat (high - low + 1)))) by lia.
    rewrite seqZ_S. rewrite Z2Nat.id by lia. do 2 f_equal. lia.
Qed.

(** One turn of the loop keeps what has been built in step with what has
    been read. *)
Lemma range_step_scanned l ranges x :
  scanned l ranges -> scanned (l ++ [x]) (range_step ranges x).
Proof.
  intros (Hexp & Hwf & Hlast & Hlen). unfold range_step.
  destruct (last ranges) as [r|] eqn:Hr.
  - apply last_Some in Hr as [ranges' ->].
    simpl in Hlast.
    rewrite expand_all_snoc in Hexp.
    apply Forall_app in Hwf as [Hwf' Hwfr]. rewrite Forall_singleton in Hwfr.
    assert (Hprev : (let '(_, previous_index) :=
                       match r with Ix i => (i, i) | Span low high => (low, high) end
                     in previous_index) = high_of r) by by destruct r.
    destruct (match r with Ix i => (i, i) | Span low high => (low, high) end)
      as [low_index previous_index] eqn:Hunpack.
    simpl in Hprev; subst previous_index.
    assert (Hlow : low_index = match r with Ix i => i | Span low _ => low end)
      by (destruct r; congruence).
    destruct (high_of r + 1 =? x) eqn:Hb.
    + pose proof (proj1 (Z.eqb_eq _ _) Hb) as Hnext.
      replace (Nat.pred (length (ranges' ++ [r]))) with (length ranges' + 0)%nat
        by (rewrite length_app; simpl; lia).
      rewrite insert_app_r. simpl.
      repeat split.
      * rewrite expand_all_snoc, Hlow, (expand_extend r x) by done.
        by rewrite <- Hexp, <- app_assoc.
      * apply Forall_app; split; [done|]. apply Forall_singleton.
        simpl. destruct r; simpl in *; subst; lia.
      * by rewrite !last_snoc.
      * rewrite runs_snoc, <- Hlast, Hb.
        rewrite !length_app in *. simpl in *. lia.
    + repeat split.
      * rewrite !expand_all_snoc. simpl. by rewrite Hexp.
      * apply Forall_app; split; [|by apply Forall_singleton].
        apply Forall_app; split; [done | by apply Forall_singleton].
      * by rewrite !last_snoc.
      * rewrite runs_snoc, <- Hlast, Hb. rewrite !length_app in *. simpl in *. lia.
  - apply last_None in Hr as ->.
    cbv [expand_all] in Hexp. simpl in Hexp. subst l.
    split; [done|]. split; [by apply Forall_singleton|]. by split.
Qed.

Lemma foldl_range_step_scanned l : scanned l (foldl range_step [] l).
Proof.
  induction l as [|x l IH] using rev_ind.
  - split; [done|]. split; [by apply Forall_nil|]. by split.
  - rewrite foldl_snoc. by apply range_step_scanned.
Qed.

End RangeProofs.

(* ================================================================== *)
(** * Properties of the Python built-ins and of the name normalizer *)
(* ================================================================== *)

Section PyProofs.
Import Py.

Lemma startswith_prefix p s : startswith p s = true <-> p `prefix_of` s.
Proof.
  revert s; induction p as [|a p IH]; intros [|b s]; simpl.
  - split; [intros; apply prefix_nil | done].
  - split; [intros; apply prefix_nil | done].
  - split; [done | by intros ?%prefix_nil_not].
  - rewrite andb_true_iff, Ascii.eqb_eq, IH. split.
    + intros [-> Hp]. by apply prefix_cons.
    + intros Hp. split; [by eapply prefix_cons_inv_1 | by eapply prefix_cons_inv_2].
Qed.

Lemma slice_bound_le n k : (slice_bound n k <= n)%nat.
Proof. unfold slice_bound. destruct (k <? 0) eqn:Hk; lia. Qed.

Lemma slice_to_len {A} (s : list A) k : 0 <= k -> len (slice_to s k) <= k.
Proof.
  intros Hk. unfold len, slice_to, slice_bound.
  rewrite length_take. destruct (k <? 0) eqn:Hneg; lia.
Qed.

Lemma slice_to_all {A} (s : list A) k : len s <= k -> slice_to s k = s.
Proof.
  intros Hk. unfold len, slice_to, slice_bound in *.
  apply take_ge. destruct (k <? 0) eqn:Hneg; lia.
Qed.

(** [s[-n:]] is the last [n] items. *)
Lemma slice_from_neg {A} (s1 s2 : list A) :
  s2 <> [] -> slice_from (s1 ++ s2) (- len s2) = s2.
Proof.
  intros Hne. unfold len, slice_from, slice_bound.
  assert (0 < length s2)%nat by (destruct s2; simpl; [done | lia]).
  destruct (- Z.of_nat (length s2) <? 0) eqn:Hneg; [|lia].
  rewrite length_app.
  replace (Z.to_nat _) with (length s1) by lia.
  apply drop_app_length.
Qed.

Section Replace.
Variables (old' : str) (z : ascii) (new : str).
Let old := old' ++ [z].

(** An occurrence of [old] at the head of [q ++ u] lies within [q] when
    the last character of [old] does not occur in [u]. *)
Lemma startswith_app_inv q u :
  z ∉ u -> startswith old (q ++ u) = true ->
  (length old <= length q)%nat /\ startswith old q = true.
Proof.
  intros Hz [r Hr]%startswith_prefix.
  assert (Hlen : (length old <= length q)%nat).
  { destruct (decide (length old <= length q)%nat) as [|Hgt]; [done|].
    exfalso. apply Hz.
    assert (Hl : (q ++ u) !! length old' = Some z).
    { rewrite Hr. subst old. rewrite <- app_assoc.
      rewrite lookup_app_r by lia. by rewrite Nat.sub_diag. }
    subst old. rewrite length_app in Hgt. simpl in Hgt.
    rewrite lookup_app_r in Hl by lia.
    by eapply list_elem_of_lookup_2. }
  split; [done|]. apply startswith_prefix.
  exists (drop (length old) q).
  rewrite <- (take_drop (length old) q) at 1. f_equal.
  apply (f_equal (take (length old))) in Hr.
  rewrite take_app_le in Hr by done. by rewrite take_app_length in Hr.
Qed.

Lemma startswith_app q u : startswith old q = true -> startswith old (q ++ u) = true.
Proof. rewrite !startswith_prefix. apply prefix_app_r. Qed.

Lemma replace_go_untouched u : z ∉ u -> replace_go old new 0 u = u.
Proof.
  induction u as [|c u IH]; [done|]. intros Hz.
  simpl. destruct (startswith old (c :: u)) eqn:Hs.
  - apply (startswith_app_inv [] (c :: u)) in Hs as [Hlen _]; [|done].
    subst old. rewrite length_app in Hlen. simpl in Hlen. lia.
  - f_equal. apply IH. by apply not_elem_of_cons in Hz as [_ ?].
Qed.

(** What follows the last place [old] can end at is left as it is. *)
Lemma replace_go_app p u skip :
  z ∉ u -> (skip <= length p)%nat ->
  replace_go old new skip (p ++ u) = replace_go old new skip p ++ u.
Proof.
  intros Hz. revert skip. induction p as [|c p IH]; intros skip Hskip.
  - simpl in Hskip. replace skip with 0%nat by lia.
    by rewrite replace_go_untouched.
  - simpl. destruct skip as [|k]; [|apply IH; simpl in Hskip; lia].
    change (c :: p ++ u) with ((c :: p) ++ u).
    destruct (startswith old ((c :: p) ++ u)) eqn:Hs.
    + apply startswith_app_inv in Hs as [Hlen ->]; [|done].
      rewrite <- app_assoc. f_equal. apply IH. simpl in Hlen. lia.
    + destruct (startswith old (c :: p)) eqn:Hs'.
      * by rewrite (startswith_app _ u Hs') in Hs.
      * simpl. f_equal. apply IH. lia.
Qed.

Lemma replace_go_nil p : new <> [] -> replace_go old new 0 p = [] -> p = [].
Proof.
  intros Hnew. destruct p as [|c p]; [done|]. simpl.
  destruct (startswith old (c :: p)); [|done].
  destruct new; [done | discriminate].
Qed.

(** The last character of the result is the last character of the text or
    a character of [new]. *)
Lemma replace_go_last p skip c :
  new <> [] -> last (replace_go old new skip p) = Some c ->
  last p = Some c \/ c ∈ new.
Proof.
  intros Hnew. revert skip. induction p as [|a p IH]; intros skip; [done|].
  simpl. destruct skip as [|k].
  - destruct (startswith old (a :: p)).
    + rewrite last_app. destruct (last (replace_go old new (length old - 1) p)) as [c'|] eqn:Hl.
      * intros [= ->]. apply IH in Hl as [Hl | Hl]; [left | by right].
        destruct p; [done | by rewrite last_cons_cons].
      * intros Hl'. right. by eapply last_Some_elem_of.
    + destruct (replace_go old new 0 p) as [|b r] eqn:Hr.
      * apply replace_go_nil in Hr as ->; [|done]. by left.
      * rewrite last_cons_cons. rewrite <- Hr. intros Hl.
        apply IH in Hl as [Hl | Hl]; [left | by right].
        destruct p; [done | by rewrite last_cons_cons].
  - intros Hl. apply IH in Hl as [Hl | Hl]; [left | by right].
    destruct p; [done | by rewrite last_cons_cons].
Qed.
End Replace.

End PyProofs.

Section MungeProofs.
Import Py Munge MungeSpec.

Lemma upper_run_app x sp rest :
  is_AZ sp = false ->
  exists u y, upper_run (x ++ sp :: rest) = (u, y ++ sp :: rest).
Proof.
  intros Hsp. induction x as [|c x IH]; simpl.
  - rewrite Hsp. by exists [], [].
  - destruct (is_AZ c).
    + destruct IH as (u & y & ->). by exists (c :: u), y.
    + by exists [], (c :: x).
Qed.

Lemma upper_run_all letters : uppercase letters -> upper_run letters = (letters, []).
Proof.
  induction 1 as [|c letters Hc _ IH]; [done|]. simpl. by rewrite Hc, IH.
Qed.

Lemma at_dollar_app y sp letters :
  letters <> [] -> at_dollar (y ++ sp :: letters) = false.
Proof. by destruct y as [|? [|? ?]], letters. Qed.

(** Before the last space of the name, [\s[A-Z]+$] does not match. *)
Lemma match_space_upper_early c x sp letters :
  is_AZ sp = false -> letters <> [] ->
  match_space_upper (c :: x ++ sp :: letters) = None.
Proof.
  intros Hsp Hne. simpl. destruct (isspace c); [|done].
  destruct (upper_run_app x sp letters Hsp) as (u & y & ->).
  destruct u; [done|]. by rewrite at_dollar_app.
Qed.

Lemma match_space_upper_tail sp letters :
  isspace sp = true -> letters <> [] -> uppercase letters ->
  match_space_upper (sp :: letters) = Some (sp :: letters).
Proof.
  intros Hsp Hne Hup. simpl. rewrite Hsp, upper_run_all by done.
  by destruct letters.
Qed.

Lemma search_tail_code_eq s :
  search_tail_code s =
    match match_tail_code s with
    | Some m => Some m
    | None =>
        match s with
        | _ :: s' => search_tail_code s'
        | [] => None
        end
    end.
Proof. by destruct s. Qed.

Lemma match_tail_code_eq c s :
  match_tail_code (c :: s) =
    if is_12 c then
      match match_space_upper s with
      | Some m => Some (c :: m)
      | None => match_space_upper (c :: s)
      end
    else match_space_upper (c :: s).
Proof. done. Qed.

(** The search finds the space and the letters that end the name, with the
    digit 1 or 2 before the space when there is one. *)
Lemma search_tail_code_found q sp letters :
  isspace sp = true -> is_AZ sp = false -> is_12 sp = false ->
  letters <> [] -> uppercase letters ->
  search_tail_code (q ++ sp :: letters) = Some (digit_before q ++ sp :: letters).
Proof.
  intros Hsp Haz H12 Hne Hup.
  assert (Hbase : search_tail_code (sp :: letters) = Some (sp :: letters)).
  { rewrite search_tail_code_eq, match_tail_code_eq, H12.
    by rewrite match_space_upper_tail. }
  induction q as [|c q IH]; [done|].
  destruct q as [|c' q'].
  - change ([c] ++ sp :: letters) with (c :: sp :: letters).
    rewrite search_tail_code_eq, match_tail_code_eq.
    replace (digit_before [c]) with (if is_12 c then [c] else []) by done.
    destruct (is_12 c) eqn:Hc.
    + by rewrite match_space_upper_tail.
    + pose proof (match_space_upper_early c [] sp letters Haz Hne) as Hearly.
      simpl app in Hearly. by rewrite Hearly, Hbase.
  - change ((c :: c' :: q') ++ sp :: letters)
      with (c :: (c' :: q') ++ sp :: letters).
    rewrite search_tail_code_eq, match_tail_code_eq.
    rewrite (match_space_upper_early c (c' :: q') sp letters) by done.
    change ((c' :: q') ++ sp :: letters) with (c' :: q' ++ sp :: letters).
    rewrite (match_space_upper_early c' q' sp letters) by done.
    change (c' :: q' ++ sp :: letters) with ((c' :: q') ++ sp :: letters).
    rewrite IH. unfold digit_before. rewrite last_cons_cons.
    by destruct (is_12 c).
Qed.

(** A safe replacement leaves a tail code where it is, and puts no 1 or 2
    before it. *)
Lemma replace_keeps_tail entry p tail :
  tail_safe entry = true ->
  Forall (fun c => tail_char c = true) tail ->
  replace entry.1 entry.2 (p ++ tail) = replace entry.1 entry.2 p ++ tail
  /\ (~ ends_in_12 p -> ~ ends_in_12 (replace entry.1 entry.2 p)).
Proof.
  destruct entry as [old new]. unfold tail_safe. simpl fst; simpl snd.
  destruct (last old) as [z|] eqn:Hlast; [|done].
  apply last_Some in Hlast as [old' ->].
  destruct new as [|n new']; [done|].
  intros [Hz Hnew]%andb_true_iff Htail.
  assert (Hnotin : z ∉ tail).
  { intros Hin. rewrite Forall_forall in Htail. apply Htail in Hin.
    rewrite Hin in Hz. done. }
  assert (Hrep : forall s, replace (old' ++ [z]) (n :: new') s
                           = replace_go (old' ++ [z]) (n :: new') 0 s).
  { intros s. unfold replace. by destruct old'. }
  rewrite !Hrep. split.
  - apply replace_go_app; [done | lia].
  - intros Hp (c & Hc & H12). apply replace_go_last in Hc as [Hc | Hc]; [| |done].
    + apply Hp. by exists c.
    + rewrite forallb_forall in Hnew. apply list_elem_of_In, Hnew in Hc.
      by rewrite H12 in Hc.
Qed.

Lemma shorten_keeps_tail replacements p tail max_length :
  Forall (fun entry => tail_safe entry = true) replacements ->
  Forall (fun c => tail_char c = true) tail ->
  exists p',
    shorten replacements (p ++ tail) max_length = p' ++ tail
    /\ (~ ends_in_12 p -> ~ ends_in_12 p').
Proof.
  intros Hsafe Htail. revert p.
  induction Hsafe as [|entry replacements Hentry _ IH]; intros p.
  - exists p. split; [|done]. simpl. by destruct (max_length <? len (p ++ tail)).
  - simpl. destruct (max_length <? len (p ++ tail)); [|by exists p].
    destruct (replace_keeps_tail entry p tail Hentry Htail) as [Heq Hkeep].
    destruct entry as [old new]. simpl in Heq, Hkeep. rewrite Heq.
    destruct (IH (replace old new p)) as (p' & -> & Hkeep').
    exists p'. split; [done|]. auto.
Qed.

Lemma replacements_tail_safe :
  Forall (fun entry => tail_safe entry = true)
         (reverse Talkgroup_Channel_name_replacements).
Proof. apply (bool_decide_unpack _). vm_compute. reflexivity. Qed.

End MungeProofs.

(* ================================================================== *)
(** * Properties of the template reader *)
(* ================================================================== *)

Section TemplateProofs.
Import Py Dmrconfig TemplateSpec.
Import DmrConfigTemplate.

Lemma find_Some sub s i :
  find sub s = Some i -> first_occurrence sub (take i s) (drop (i + length sub) s) s.
Proof.
  revert i. induction s as [|c s IH]; intros i; simpl.
  - destruct (startswith sub []) eqn:Hs; [|done]. intros [= <-].
    apply startswith_prefix, prefix_nil_inv in Hs as ->.
    split; [done|]. intros a' b' _. simpl. lia.
  - destruct (startswith sub (c :: s)) eqn:Hs.
    + intros [= <-]. apply startswith_prefix in Hs as [r Hr].
      split; [|intros; simpl; lia].
      change (take 0 (c :: s)) with (@nil ascii).
      change (0 + length sub)%nat with (length sub).
      rewrite Hr. by rewrite drop_app_length.
    + destruct (find sub s) as [j|] eqn:Hj; [|done]. intros [= <-].
      destruct (IH j eq_refl) as [Heq Hmin]. split.
      * simpl. by rewrite <- Heq.
      * intros [|a0 a'] b' Ha.
        -- exfalso. simpl in Ha.
           assert (startswith sub (c :: s) = true); [|congruence].
           apply startswith_prefix. by exists b'.
        -- simpl in Ha. injection Ha as -> Ha.
           rewrite length_take. specialize (Hmin a' b' Ha).
           rewrite length_take in Hmin. simpl. lia.
Qed.

Lemma find_None sub s : find sub s = None -> ~ occurs sub s.
Proof.
  induction s as [|c s IH]; simpl.
  - destruct (startswith sub []) eqn:Hs; [done|]. intros _ (a & b & Hab).
    destruct a, sub; try done.
  - destruct (startswith sub (c :: s)) eqn:Hs; [done|].
    destruct (find sub s) eqn:Hf; [done|]. intros _ (a & b & Hab).
    destruct a as [|a0 a].
    + assert (startswith sub (c :: s) = true); [|congruence].
      apply startswith_prefix. by exists b.
    + injection Hab as -> Hab. apply IH; [done|]. by exists a, b.
Qed.

Lemma contains_occurs sub s : contains sub s = true <-> occurs sub s.
Proof.
  unfold contains. destruct (find sub s) as [i|] eqn:Hf.
  - split; [|done]. intros _. apply find_Some in Hf as [Heq _]. by eexists _, _.
  - split; [done|]. intros Ho. by apply find_None in Hf.
Qed.

(** Two first occurrences are the same one. *)
Lemma first_occurrence_unique sep a b a' b' s :
  first_occurrence sep a b s -> first_occurrence sep a' b' s -> a = a' /\ b = b'.
Proof.
  intros [Hs Hmin] [Hs' Hmin'].
  pose proof (Hmin _ _ Hs'). pose proof (Hmin' _ _ Hs).
  assert (Hlen : length a = length a') by lia.
  rewrite Hs in Hs'. apply app_inj_1 in Hs' as [-> Hs']; [|done].
  by apply app_inv_head in Hs' as ->.
Qed.

Lemma partition_first_occurrence sep a b s :
  sep <> [] -> first_occurrence sep a b s -> partition s sep = (a, sep, b).
Proof.
  intros Hsep Hfirst. unfold partition.
  destruct (find sep s) as [i|] eqn:Hf.
  - apply find_Some in Hf.
    by destruct (first_occurrence_unique _ _ _ _ _ _ Hf Hfirst) as [-> ->].
  - apply find_None in Hf. destruct Hfirst as [Hs _]. exfalso. apply Hf.
    by exists a, b.
Qed.

Lemma partition_no_occurrence sep s :
  ~ occurs sep s -> partition s sep = (s, [], []).
Proof.
  intros Hno. unfold partition. destruct (find sep s) as [i|] eqn:Hf; [|done].
  exfalso. apply Hno. apply contains_occurs. unfold contains. by rewrite Hf.
Qed.

(** Until the radio is found, a line without the marker only joins the
    header. *)
Lemma read_line_seeking t0 tline :
  radio t0 = None -> ~ occurs marker tline ->
  read_line t0 tline
  = Ok {| header := header t0 ++ [tline]; footer := footer t0; radio := None |}.
Proof.
  intros Hradio Hno. unfold read_line.
  rewrite Hradio, partition_no_occurrence by done. done.
Qed.

(** The first line that holds the marker decides the radio. *)
Lemma read_line_marker t0 tline a name :
  radio t0 = None -> first_occurrence marker a name tline ->
  read_line t0 tline
  = (r ← Radio_of_value name;
     Ok {| header := header t0 ++ [tline]; footer := footer t0; radio := Some r |}).
Proof.
  intros Hradio Hfirst. unfold read_line.
  rewrite Hradio, (partition_first_occurrence marker a name) by done. done.
Qed.

(** Once the radio is found, each line goes to the header or to the footer
    by its own shape alone. *)
Lemma read_line_found t0 tline r :
  radio t0 = Some r ->
  read_line t0 tline
  = Ok (if is_metadata tline
        then {| header := header t0 ++ [tline]; footer := footer t0; radio := Some r |}
        else {| header := header t0; footer := footer t0 ++ [tline]; radio := Some r |}).
Proof.
  intros Hradio. unfold read_line. rewrite Hradio.
  by destruct (is_metadata tline).
Qed.

Lemma foldM_read_line_seeking lines t0 :
  radio t0 = None -> Forall (fun tline => ~ occurs marker tline) lines ->
  foldM read_line t0 lines
  = Ok {| header := header t0 ++ lines; footer := footer t0; radio := None |}.
Proof.
  intros Hradio Hno. revert t0 Hradio.
  induction Hno as [|tline lines Hline _ IH]; intros t0 Hradio.
  - simpl. rewrite app_nil_r. destruct t0; simpl in *; by subst.
  - simpl. rewrite read_line_seeking by done. simpl.
    rewrite IH by done. simpl. by rewrite <- app_assoc.
Qed.

Lemma foldM_read_line_found lines t0 r :
  radio t0 = Some r ->
  foldM read_line t0 lines
  = Ok {| header := header t0 ++ filter (fun l => is_metadata l = true) lines;
          footer := footer t0 ++ filter (fun l => is_metadata l = false) lines;
          radio := Some r |}.
Proof.
  revert t0. induction lines as [|tline lines IH]; intros t0 Hradio.
  - simpl. rewrite !app_nil_r. destruct t0; simpl in *; by subst.
  - simpl. rewrite (read_line_found _ _ r) by done. simpl.
    destruct (is_metadata tline) eqn:Hm.
    + rewrite IH by done. simpl.
      rewrite filter_cons_True, filter_cons_False by (by rewrite Hm).
      by rewrite <- app_assoc.
    + rewrite IH by done. simpl.
      rewrite filter_cons_False, filter_cons_True by (by rewrite Hm).
      by rewrite <- app_assoc.
Qed.

Lemma foldM_app {A S} (f : S -> A -> result S) (s : S) (l1 l2 : list A) :
  foldM f s (l1 ++ l2) = (s' ← foldM f s l1; foldM f s' l2).
Proof.
  revert s. induction l1 as [|a l1 IH]; intros s; [done|].
  simpl. destruct (f s a); [apply IH | done].
Qed.

(** The whole reading of a template whose first line with the marker is
    [tline]. *)
Lemma read_lines_marker before tline after a name :
  Forall (fun l => ~ occurs marker l) before ->
  first_occurrence marker a name tline ->
  read_lines (before ++ tline :: after)
  = (r ← Radio_of_value name;
     Ok {| header := before ++ [tline]
                     ++ filter (fun l => is_metadata l = true) after ++ [ [] ];
           footer := filter (fun l => is_metadata l = false) after;
           radio := Some r |}).
Proof.
  intros Hbefore Hfirst. unfold read_lines.
  rewrite foldM_app, foldM_read_line_seeking by done. simpl.
  rewrite (read_line_marker _ _ a name) by done. simpl.
  destruct (Radio_of_value name) as [r|e]; [|done]. simpl.
  rewrite (foldM_read_line_found _ _ r) by done. simpl.
  by rewrite <- !app_assoc.
Qed.

Lemma read_lines_no_marker lines :
  Forall (fun l => ~ occurs marker l) lines ->
  read_lines lines = Err (TemplateError (L "template should specify a radio type")).
Proof.
  intros Hno. unfold read_lines. by rewrite foldM_read_line_seeking.
Qed.

Lemma Radio_of_value_Ok name r : Radio_of_value name = Ok r <-> name = Radio_value r.
Proof.
  unfold Radio_of_value. split.
  - destruct (List.find _ _) as [r'|] eqn:Hf; [|done]. intros [= ->].
    apply find_some in Hf as [_ Hv]. by apply bool_decide_eq_true in Hv.
  - intros ->. by destruct r.
Qed.

Lemma read_template_marker template before tline after a name r :
  splitlines template = before ++ tline :: after ->
  Forall (fun l => ~ occurs marker l) before ->
  first_occurrence marker a name tline ->
  name = Radio_value r ->
  read_template template
  = Ok {| header := before ++ [tline]
                    ++ filter (fun l => is_metadata l = true) after ++ [ [] ];
          footer := filter (fun l => is_metadata l = false) after;
          radio := Some r |}.
Proof.
  intros Hlines Hbefore Hfirst Hname.
  unfold read_template. rewrite Hlines.
  rewrite (read_lines_marker before tline after a name) by done.
  apply Radio_of_value_Ok in Hname. by rewrite Hname.
Qed.

(** A check that runs: none of the lines holds [sep]. *)
Lemma Forall_no_occurrence sep lines :
  forallb (fun l => negb (contains sep l)) lines = true ->
  Forall (fun l => ~ occurs sep l) lines.
Proof.
  rewrite forallb_forall, Forall_forall. intros Hall l Hin Ho.
  apply list_elem_of_In, Hall in Hin. apply contains_occurs in Ho.
  by rewrite Ho in Hin.
Qed.

Lemma occurs_first_occurrence sep s :
  occurs sep s -> exists a b, first_occurrence sep a b s.
Proof.
  intros Ho%contains_occurs. unfold contains in Ho.
  destruct (find sep s) as [i|] eqn:Hf; [|done].
  apply find_Some in Hf. by eexists _, _.
Qed.

End TemplateProofs.

(* ================================================================== *)
(** * Properties of the index lookup and of the rendering *)
(* ================================================================== *)

Section IndexProofs.
Import Py Dmrconfig.

Lemma Dict_get_set {K V} `{EqDecision K} (d : dict K V) k v k' :
  Dict.get (Dict.set d k v) k' = if decide (k = k') then Some v else Dict.get d k'.
Proof.
  induction d as [|[k0 v0] d IH]; simpl.
  - by destruct (decide (k = k')).
  - destruct (decide (k0 = k)) as [->|Hne]; simpl.
    + by destruct (decide (k = k')).
    + destruct (decide (k0 = k')) as [->|Hne'].
      * by destruct (decide (k = k')) as [->|].
      * apply IH.
Qed.

Lemma enumerate_snoc {A} (l : list A) x :
  enumerate (l ++ [x]) = enumerate l ++ [(length l, x)].
Proof.
  unfold enumerate. rewrite length_app. simpl.
  rewrite Nat.add_1_r, seq_S.
  rewrite zip_with_app by (by rewrite length_seq).
  done.
Qed.

Lemma elem_of_enumerate {A} (l : list A) i x :
  (i, x) ∈ enumerate l <-> l !! i = Some x.
Proof.
  unfold enumerate. rewrite list_elem_of_lookup. split.
  - intros [j Hj]. apply lookup_zip_with_Some in Hj as (i' & x' & [= <- <-] & Hi & Hx).
    apply lookup_seq in Hi as [-> _]. done.
  - intros Hx. exists i. apply lookup_zip_with_Some. exists i, x.
    split; [done|]. split; [|done]. apply lookup_seq. split; [done|].
    by eapply lookup_lt_Some.
Qed.


End IndexProofs.

Section JoinProofs.
Import Py.

Lemma join_cons sep p q rest :
  join sep (p :: q :: rest) = p ++ sep ++ join sep (q :: rest).
Proof. done. Qed.

(** A joined text ends with its last parts, joined. *)
Lemma join_app_suffix sep parts1 parts2 :
  join sep parts2 `suffix_of` join sep (parts1 ++ parts2).
Proof.
  induction parts1 as [|p parts1 IH]; [done|].
  destruct (parts1 ++ parts2) as [|q rest] eqn:Hrest.
  - apply app_eq_nil in Hrest as [-> ->]. simpl. apply suffix_nil.
  - change ((p :: parts1) ++ parts2) with (p :: (parts1 ++ parts2)).
    rewrite Hrest, join_cons. by do 2 apply suffix_app_r.
Qed.

End JoinProofs.

Section RenderProofs.
Import Py Format Model Dmrconfig RenderSpec.
Context `{M : DzcbModel}.


Lemma elem_of_numbered {A} (items : list A) ix item :
  (ix, item) ∈ Table.numbered items
  <-> exists i : nat, items !! i = Some item /\ ix = Z.of_nat i + 1.
Proof.
  unfold Table.numbered.
  change (map ?f ?l) with (f <$> l). rewrite list_elem_of_fmap. split.
  - intros ([i x] & [= -> ->] & Hin). apply elem_of_enumerate in Hin. eauto.
  - intros (i & Hx & ->). exists (i, item). split; [done|].
    by apply elem_of_enumerate.
Qed.


Lemma elem_of_omap_enumerate {A B} (f : nat * A -> option B) (items : list A) b :
  b ∈ omap f (enumerate items)
  <-> exists i x, items !! i = Some x /\ f (i, x) = Some b.
Proof.
  rewrite list_elem_of_omap. split.
  - intros ([i x] & Hin & Hf). apply elem_of_enumerate in Hin. eauto.
  - intros (i & x & Hx & Hf). exists (i, x). split; [|done].
    by apply elem_of_enumerate.
Qed.





(** The documentation block and the column header of a table never raise:
    their format strings are well formed and name only fields they are
    given. *)
Lemma docs_of_Ok (k : kind) (t : Table.t) : is_Ok (docs_of k t).
Proof. destruct k; eexists; vm_compute; reflexivity. Qed.

Lemma header_of_Ok (k : kind) : is_Ok (header_of k).
Proof. destruct k; eexists; vm_compute; reflexivity. Qed.

Lemma mapM_Err {A B} (f : A -> result B) l e :
  mapM f l = Err e -> exists a, a ∈ l /\ f a = Err e.
Proof.
  induction l as [|a l IH]; simpl; [done|].
  destruct (f a) as [b|e'] eqn:Hfa; simpl.
  - destruct (mapM f l) as [bs|e'']; simpl; [done|]. intros [= ->].
    destruct IH as (a' & Hin & Ha'); [done|]. exists a'. split; [|done].
    by apply list_elem_of_further.
  - intros [= ->]. exists a. split; [apply list_elem_of_here | done].
Qed.

(** [render] goes through the six kinds in the fixed order, after a single
    version line. *)
Lemma render_sections (self : Dmrconfig_Codeplug.t) :
  Dmrconfig_Codeplug.render self
  = (sections ← mapM (section_of self) fixed_order;
     Ok (Dmrconfig_Codeplug.version_line :: concat sections)).
Proof.
  unfold Dmrconfig_Codeplug.render, fixed_order, section_of.
  cbn [mapM table_of docs_of header_of rows_of].
  repeat match goal with
         | |- context [mbind _ ?r] =>
             let x := fresh "r" in
             generalize r; intros x; destruct x;
             cbn [mbind mret result_bind result_ret]; try done
         end.
  cbn [concat app]. by rewrite app_nil_r.
Qed.






End RenderProofs.

(* ================================================================== *)
(** * The claims of the specification *)
(* ================================================================== *)

Section Claims.
Import Py Format Model Dmrconfig RangeSpec TemplateSpec RenderSpec Example.

(** The tokens built for a selection whose items all resolve expand to the
    resolved indexes, whatever these are. *)
Lemma items_to_range_tuples_expand {A K} `{EqDecision K}
    (items_by_index : dict K Z) (selected_items : list A) (key : A -> K)
    (indexes : list Z) :
  selected_indexes items_by_index selected_items key = Ok indexes ->
  exists ranges,
    items_to_range_tuples items_by_index selected_items key = Ok ranges
    /\ scanned indexes ranges.
Proof.
  intros Hsel. exists (foldl range_step [] indexes). split.
  - unfold items_to_range_tuples. by rewrite Hsel.
  - apply foldl_range_step_scanned.
Qed.

(** C2. Round trip of the range compressor: when the selected items resolve
    to a sequence of distinct integers that holds at least one run of two or
    more consecutive values, the compressor returns tokens, and expanding
    each token (a bare integer to itself, a pair (low, high) to
    low, low+1, ..., high) and concatenating the expansions in token order
    gives back exactly that sequence, in the same order. *)
Theorem C2_range_roundtrip {A K} `{EqDecision K}
    (items_by_index : dict K Z) (selected_items : list A) (key : A -> K)
    (indexes : list Z) :
  selected_indexes items_by_index selected_items key = Ok indexes ->
  NoDup indexes ->
  has_run indexes ->
  exists ranges,
    items_to_range_tuples items_by_index selected_items key = Ok ranges
    /\ expand_all ranges = indexes.
Proof.
  intros Hsel _ _.
  destruct (items_to_range_tuples_expand _ _ _ _ Hsel) as (ranges & Hr & Hexp & _).
  by exists ranges.
Qed.

Lemma C2_range_roundtrip_witness :
  exists ranges,
    items_to_range_tuples five_by_index four_selected id = Ok ranges
    /\ expand_all ranges = [1; 2; 3; 5].
Proof.
  apply (C2_range_roundtrip five_by_index four_selected id [1; 2; 3; 5]).
  - reflexivity.
  - apply (bool_decide_unpack _). reflexivity.
  - exists 0%nat, 1. split; reflexivity.
Defined.

(** C9. The range compressor returns the fewest tokens that any tokenization
    of the resolved indexes, kept in their order, into single values and
    contiguous ascending ranges can have; and the indexes 1, 2, 3, 5 compress
    to the tokens (1, 3), 5, which [format_ranges] renders as 1-3,5. *)
Theorem C9_range_minimal {A K} `{EqDecision K}
    (items_by_index : dict K Z) (selected_items : list A) (key : A -> K)
    (indexes : list Z) :
  selected_indexes items_by_index selected_items key = Ok indexes ->
  (exists ranges,
      items_to_range_tuples items_by_index selected_items key = Ok ranges
      /\ expand_all ranges = indexes
      /\ forall tokens : list Range,
           expand_all tokens = indexes ->
           (length ranges <= length tokens)%nat)
  /\ selected_indexes five_by_index four_selected id = Ok [1; 2; 3; 5]
  /\ items_to_range_tuples five_by_index four_selected id = Ok [Span 1 3; Ix 5]
  /\ format_ranges [Span 1 3; Ix 5] = L "1-3,5".
Proof.
  intros Hsel. split; [|by repeat split].
  destruct (items_to_range_tuples_expand _ _ _ _ Hsel)
    as (ranges & Hr & Hexp & _ & _ & Hlen).
  exists ranges. repeat split; [done.. |].
  intros tokens <-. rewrite Hlen. apply runs_expand_all.
Qed.

Lemma C9_range_minimal_witness :
  exists ranges,
    items_to_range_tuples five_by_index four_selected id = Ok ranges
    /\ expand_all ranges = [1; 2; 3; 5]
    /\ forall tokens : list Range,
         expand_all tokens = [1; 2; 3; 5] ->
         (length ranges <= length tokens)%nat.
Proof.
  apply (C9_range_minimal five_by_index four_selected id [1; 2; 3; 5]).
  reflexivity.
Defined.

(** C6. For every string [s] and every limit [limit >= 1] the name
    normalizer returns a string whose length is at most [limit].  It is a
    total function, no step of it can raise: the replacement loop ends when
    the dictionary is empty, slices never fail, and the truncation to
    [limit] that comes last bounds the length whatever came before. *)
Theorem C6_name_limit (s : str) (limit : Z) :
  1 <= limit ->
  exists out : str, Munge.channel_name s limit = out /\ len out <= limit.
Proof.
  intros Hlimit. eexists. split; [reflexivity|].
  unfold Munge.channel_name. apply slice_to_len. lia.
Qed.

Lemma C6_name_limit_witness :
  exists out : str,
    Munge.channel_name (L "PNW Washington State 2 WA") 16 = out
    /\ len out <= 16.
Proof. apply (C6_name_limit (L "PNW Washington State 2 WA") 16). lia. Defined.

(** C5, as the specification states it, fails twice.  With room for the
    tail and exactly one more character the name is cut from the right and
    the tail is lost; and a digit other than 1 and 2 before the space is not
    part of the tail that is kept. *)
Lemma C5_counterexample :
  (L " XY" `suffix_of` L "ABCDEFGH XY"
   /\ len (L " XY") + 1 <= 4
   /\ Munge.channel_name (L "ABCDEFGH XY") 4 = L "ABCD"
   /\ ~ L " XY" `suffix_of` Munge.channel_name (L "ABCDEFGH XY") 4)
  /\ (L "3 XY" `suffix_of` L "ABCDEFGHIJKLMNOP3 XY"
      /\ len (L "3 XY") + 1 <= 10
      /\ Munge.channel_name (L "ABCDEFGHIJKLMNOP3 XY") 10 = L "ABCDEFG XY"
      /\ ~ L "3 XY" `suffix_of` Munge.channel_name (L "ABCDEFGHIJKLMNOP3 XY") 10).
Proof.
  split.
  - split; [by exists (L "ABCDEFGH")|].
    split; [by vm_compute|]. split; [by vm_compute|].
    apply (bool_decide_unpack _). by vm_compute.
  - split; [by exists (L "ABCDEFGHIJKLMNOP")|].
    split; [by vm_compute|]. split; [by vm_compute|].
    apply (bool_decide_unpack _). by vm_compute.
Qed.

(** C5, amended.  For every name that ends in a space followed by one or
    more uppercase letters, the space preceded or not by the digit 1 or 2
    (the tail takes the digit in whenever it is there), and for every limit
    greater than the length of that tail plus one, the output of the name
    normalizer ends with exactly that tail. *)
Theorem C5_tail_preserved (head digit letters : str) (max_length : Z) :
  letters <> [] ->
  MungeSpec.uppercase letters ->
  (digit = [] /\ ~ MungeSpec.ends_in_12 head) \/ digit = L "1" \/ digit = L "2" ->
  len (digit ++ L " " ++ letters) + 1 < max_length ->
  (digit ++ L " " ++ letters)
    `suffix_of` Munge.channel_name (head ++ digit ++ L " " ++ letters) max_length.
Proof.
  intros Hne Hup Hdigit Hroom.
  set (tail := digit ++ L " " ++ letters) in *.
  unfold Munge.channel_name.
  assert (Htail : Forall (fun c => MungeSpec.tail_char c = true) tail).
  { subst tail. apply Forall_app; split.
    - destruct Hdigit as [[-> _] | [-> | ->]]; by repeat constructor.
    - apply Forall_cons; split; [done|].
      eapply Forall_impl; [exact Hup|]. intros c Hc.
      unfold MungeSpec.tail_char. rewrite Hc. by rewrite orb_true_r. }
  destruct (shorten_keeps_tail
              (reverse Munge.Talkgroup_Channel_name_replacements)
              head tail max_length replacements_tail_safe Htail)
    as (head' & -> & Hkeep).
  assert (Hfound : Munge.search_tail_code (head' ++ tail) = Some tail).
  { subst tail. rewrite app_assoc.
    change (L " " ++ letters) with (" "%char :: letters).
    rewrite search_tail_code_found by done. do 2 f_equal.
    unfold MungeSpec.digit_before.
    destruct Hdigit as [[-> Hno] | [-> | ->]].
    - rewrite app_nil_r. destruct (last head') as [c|] eqn:Hlast; [|done].
      destruct (Munge.is_12 c) eqn:Hc; [|done].
      exfalso. apply (Hkeep Hno). by exists c.
    - change (L "1") with ["1"%char]. by rewrite last_snoc.
    - change (L "2") with ["2"%char]. by rewrite last_snoc. }
  rewrite Hfound.
  assert (Htl : tail <> []) by (subst tail; by destruct digit).
  destruct (max_length <? len (head' ++ tail)) eqn:Hlong.
  - apply Z.ltb_lt in Hlong.
    assert (Hguard : (len tail + 1 <? max_length) = true) by (by apply Z.ltb_lt).
    rewrite Hguard, slice_from_neg by done.
    rewrite slice_to_all; [by apply suffix_app_r|].
    unfold len in *. rewrite length_app. unfold slice_to, slice_bound.
    rewrite length_take, length_app in *.
    destruct (_ <? 0) eqn:Hneg; lia.
  - apply Z.ltb_ge in Hlong. rewrite slice_to_all by done.
    by apply suffix_app_r.
Qed.

Lemma C5_tail_preserved_witness :
  L "2 WA" `suffix_of` Munge.channel_name (L "PNW Washington State 2 WA") 16.
Proof.
  apply (C5_tail_preserved (L "PNW Washington State ") (L "2") (L "WA") 16).
  - done.
  - by repeat constructor.
  - right. by right.
  - done.
Defined.

(** C3, as the specification states it, fails: a line that names a metadata
    entry is appended to the header even when lines of the footer came
    before it.  Here the version line follows the first footer line, and is
    in the header all the same. *)
Lemma C3_counterexample :
  exists t,
    DmrConfigTemplate.read_template template_late_metadata = Ok t
    /\ DmrConfigTemplate.footer t = [L "Intro Line 1: hello"; L "Intro Line 2: world"]
    /\ DmrConfigTemplate.header t =
         [ L "# dmrconfig template"; L "Radio: TYT MD-380";
           L "Last Programmed Date: 2020-01-01"; L "CPS Software Version: 1.0";
           [] ].
Proof. eexists. by vm_compute. Qed.

(** C3, amended.  After the radio-identification line has been found (the
    first line of the template that holds the marker, with a known radio
    name after it), every later line is placed by its own shape alone: a
    line that names a metadata entry is appended to the header, wherever it
    stands, and every other line is appended verbatim to the footer.  So the
    first later line that matches neither marker is the first footer line,
    and the footer is, in order, the later lines that match neither marker;
    the header ends with the blank line added after the reading. *)
Theorem C3_template_split (template : str) (before : list str) (tline : str)
    (after : list str) (a name : str) (r : Radio) :
  splitlines template = before ++ tline :: after ->
  Forall (fun l => ~ occurs DmrConfigTemplate.marker l) before ->
  first_occurrence DmrConfigTemplate.marker a name tline ->
  name = Radio_value r ->
  DmrConfigTemplate.read_template template
  = Ok {| DmrConfigTemplate.header :=
            before ++ [tline]
            ++ filter (fun l => DmrConfigTemplate.is_metadata l = true) after
            ++ [ [] ];
          DmrConfigTemplate.footer :=
            filter (fun l => DmrConfigTemplate.is_metadata l = false) after;
          DmrConfigTemplate.radio := Some r |}.
Proof.
  apply read_template_marker.
Qed.

Lemma C3_template_split_witness :
  DmrConfigTemplate.read_template template_late_metadata
  = Ok {| DmrConfigTemplate.header :=
            [L "# dmrconfig template"] ++ [L "Radio: TYT MD-380"]
            ++ filter (fun l => DmrConfigTemplate.is_metadata l = true)
                 [ L "Last Programmed Date: 2020-01-01"; L "Intro Line 1: hello";
                   L "CPS Software Version: 1.0"; L "Intro Line 2: world" ]
            ++ [ [] ];
          DmrConfigTemplate.footer :=
            filter (fun l => DmrConfigTemplate.is_metadata l = false)
                 [ L "Last Programmed Date: 2020-01-01"; L "Intro Line 1: hello";
                   L "CPS Software Version: 1.0"; L "Intro Line 2: world" ];
          DmrConfigTemplate.radio := Some MD_380 |}.
Proof.
  apply (C3_template_split template_late_metadata
           [L "# dmrconfig template"] (L "Radio: TYT MD-380")
           [ L "Last Programmed Date: 2020-01-01"; L "Intro Line 1: hello";
             L "CPS Software Version: 1.0"; L "Intro Line 2: world" ]
           [] (L "TYT MD-380") MD_380).
  - reflexivity.
  - apply Forall_no_occurrence. vm_compute. reflexivity.
  - apply (find_Some DmrConfigTemplate.marker (L "Radio: TYT MD-380") 0).
    reflexivity.
  - reflexivity.
Defined.

(** The first line that holds the marker decides alone.  Parsing a template
    none of whose lines holds the marker fails with a template error, and
    so does the construction of the rendered codeplug from it, so that no
    table is rendered.  When what follows the first occurrence of the marker
    in the first line that holds it is a known radio name, parsing succeeds
    and returns that radio, which the codeplug built from the template takes
    as its own; when it is not, parsing fails, and no codeplug is built. *)
Lemma read_template_first_marker_decides `{M : DzcbModel} (template : str) :
  (Forall (fun l => ~ occurs DmrConfigTemplate.marker l) (splitlines template) ->
   DmrConfigTemplate.read_template template
   = Err (TemplateError (L "template should specify a radio type"))
   /\ forall table radio,
        Dmrconfig_Codeplug.new table (Some template) radio
        = Err (TemplateError (L "template should specify a radio type")))
  /\ (forall before tline after a name,
        splitlines template = before ++ tline :: after ->
        Forall (fun l => ~ occurs DmrConfigTemplate.marker l) before ->
        first_occurrence DmrConfigTemplate.marker a name tline ->
        (forall r,
            name = Radio_value r ->
            (exists t,
                DmrConfigTemplate.read_template template = Ok t
                /\ DmrConfigTemplate.radio t = Some r)
            /\ forall table,
                 exists dc,
                   Dmrconfig_Codeplug.new table (Some template) None = Ok dc
                   /\ Dmrconfig_Codeplug.radio dc = r)
        /\ ((forall r, name <> Radio_value r) ->
            exists e,
              DmrConfigTemplate.read_template template = Err e
              /\ forall table radio,
                   Dmrconfig_Codeplug.new table (Some template) radio = Err e)).
Proof.
  split.
  - intros Hno.
    assert (Hread : DmrConfigTemplate.read_template template
                    = Err (TemplateError (L "template should specify a radio type")))
      by (by apply read_lines_no_marker).
    split; [done|]. intros table radio.
    unfold Dmrconfig_Codeplug.new. by rewrite Hread.
  - intros before tline after a name Hlines Hbefore Hfirst. split.
    + intros r Hname.
      pose proof (read_template_marker template before tline after a name r
                    Hlines Hbefore Hfirst Hname) as Hread.
      split; [by eexists|]. intros table. eexists.
      unfold Dmrconfig_Codeplug.new. rewrite Hread. simpl. done.
    + intros Hunknown.
      assert (Hread : exists e, DmrConfigTemplate.read_template template = Err e).
      { unfold DmrConfigTemplate.read_template. rewrite Hlines.
        rewrite (read_lines_marker before tline after a name) by done.
        destruct (Radio_of_value name) as [r|e] eqn:Hr; [|by exists e].
        apply Radio_of_value_Ok in Hr. by destruct (Hunknown r). }
      destruct Hread as [e Hread]. exists e. split; [done|].
      intros table radio. unfold Dmrconfig_Codeplug.new. by rewrite Hread.
Qed.

(** C7.  The docstring of [read_template] promises a TemplateError for a
    template that has no valid radio line, and so does the specification
    for a radio name that is not known.  On a template whose radio line
    names a radio that the enumeration does not hold, the code raises the
    ValueError of the enumeration instead, which is no TemplateError
    (TemplateError is the subclass), and the construction of the rendered
    codeplug from that template raises the same, before any table is
    rendered. *)
Theorem C7_unknown_radio_is_no_template_error :
  splitlines template_unknown_radio
  = [ L "# dmrconfig template"; L "Radio: Yaesu FT-60";
      L "Last Programmed Date: 2020-01-01" ]
  /\ (forall r, L "Yaesu FT-60" <> Radio_value r)
  /\ DmrConfigTemplate.read_template template_unknown_radio
     = Err (ValueError (L "Yaesu FT-60"))
  /\ (forall msg,
        DmrConfigTemplate.read_template template_unknown_radio
        <> Err (TemplateError msg))
  /\ forall `{M : DzcbModel} (table : Table.t) radio,
       Dmrconfig_Codeplug.new table (Some template_unknown_radio) radio
       = Err (ValueError (L "Yaesu FT-60")).
Proof.
  assert (Hread : DmrConfigTemplate.read_template template_unknown_radio
                  = Err (ValueError (L "Yaesu FT-60")))
    by (vm_compute; reflexivity).
  split; [vm_compute; reflexivity|].
  split; [intros r; destruct r; vm_compute; discriminate|].
  split; [done|]. split.
  - intros msg. rewrite Hread. discriminate.
  - intros M table radio. unfold Dmrconfig_Codeplug.new. by rewrite Hread.
Qed.

(** C10. While no radio has been found, a line that holds the marker
    [Radio: ] anywhere, not only at its start, is taken as the
    radio-identification line: it joins the header, and everything after the
    first occurrence of the marker in it is handed as it is to the radio
    enumeration, which knows a name only when it is, character for
    character, the value of one of its members.  So [My Radio: TYT MD-380]
    is accepted and selects the TYT MD-380, while the same name in lower
    case is refused. *)
Theorem C10_marker_anywhere (t0 : DmrConfigTemplate.t) (tline : str) :
  DmrConfigTemplate.radio t0 = None ->
  occurs DmrConfigTemplate.marker tline ->
  (exists a name,
      first_occurrence DmrConfigTemplate.marker a name tline
      /\ DmrConfigTemplate.read_line t0 tline
         = (r ← Radio_of_value name;
            Ok {| DmrConfigTemplate.header := DmrConfigTemplate.header t0 ++ [tline];
                  DmrConfigTemplate.footer := DmrConfigTemplate.footer t0;
                  DmrConfigTemplate.radio := Some r |})
      /\ forall r, Radio_of_value name = Ok r <-> name = Radio_value r)
  /\ DmrConfigTemplate.read_template (L "My Radio: TYT MD-380")
     = Ok {| DmrConfigTemplate.header := [L "My Radio: TYT MD-380"; []];
             DmrConfigTemplate.footer := [];
             DmrConfigTemplate.radio := Some MD_380 |}
  /\ DmrConfigTemplate.read_template (L "My Radio: tyt md-380")
     = Err (ValueError (L "tyt md-380")).
Proof.
  intros Hradio Ho. split; [|by split].
  destruct (occurs_first_occurrence _ _ Ho) as (a & name & Hfirst).
  exists a, name. split; [done|]. split.
  - by apply (read_line_marker _ _ a).
  - intros r. apply Radio_of_value_Ok.
Qed.

Lemma C10_marker_anywhere_witness :
  exists a name,
    first_occurrence DmrConfigTemplate.marker a name (L "My Radio: TYT MD-380")
    /\ DmrConfigTemplate.read_line DmrConfigTemplate.empty (L "My Radio: TYT MD-380")
       = (r ← Radio_of_value name;
          Ok {| DmrConfigTemplate.header := [] ++ [L "My Radio: TYT MD-380"];
                DmrConfigTemplate.footer := [];
                DmrConfigTemplate.radio := Some r |})
    /\ forall r, Radio_of_value name = Ok r <-> name = Radio_value r.
Proof.
  apply (C10_marker_anywhere DmrConfigTemplate.empty (L "My Radio: TYT MD-380")).
  - reflexivity.
  - by exists (L "My "), (L "TYT MD-380").
Defined.

(** C4, as the specification states it, fails: the version-stamped comment
    line is not emitted for each table.  For the small codeplug, [render]
    gives 17 lines of which one is the version line, where the layout of
    the specification has 22 lines with six version lines. *)
Lemma C4_counterexample :
  match Dmrconfig_Codeplug.new small_table (Some template_late_metadata) None with
  | Ok dc =>
      match Dmrconfig_Codeplug.render dc, render_as_stated dc with
      | Ok lines, Ok stated =>
          (length lines = 17 /\ count_line Dmrconfig_Codeplug.version_line lines = 1)%nat
          /\ (length stated = 22
              /\ count_line Dmrconfig_Codeplug.version_line stated = 6)%nat
          /\ lines !! 3%nat <> stated !! 3%nat
      | _, _ => False
      end
  | Err _ => False
  end.
Proof. vm_compute. repeat split. discriminate. Qed.

(** C4, amended.  The render operation emits one version-stamped comment
    line, and then, for each of the six table kinds in the fixed order
    analog, digital, contact, group list, scan list, zone: the documentation
    block, the column-header line and every data row of that table.  The
    rendered document is the header lines of the template, these lines and
    the footer lines of the template joined by newlines, so that it ends
    with the footer lines, unchanged. *)
Theorem C4_render_layout `{M : DzcbModel} (self : Dmrconfig_Codeplug.t)
    (tpl : DmrConfigTemplate.t) :
  Dmrconfig_Codeplug.template self = Some tpl ->
  Dmrconfig_Codeplug.render self
  = (sections ← mapM (section_of self) fixed_order;
     Ok (Dmrconfig_Codeplug.version_line :: concat sections))
  /\ Dmrconfig_Codeplug.render_template self
     = (body ← Dmrconfig_Codeplug.render self;
        Ok (join newline
              (DmrConfigTemplate.header tpl ++ body ++ DmrConfigTemplate.footer tpl)))
  /\ forall document,
       Dmrconfig_Codeplug.render_template self = Ok document ->
       join newline (DmrConfigTemplate.footer tpl) `suffix_of` document.
Proof.
  intros Htpl. split; [apply render_sections|].
  unfold Dmrconfig_Codeplug.render_template. rewrite Htpl. split; [done|].
  intros document. destruct (Dmrconfig_Codeplug.render self) as [body|e]; [|done].
  intros [= <-]. rewrite app_assoc. apply join_app_suffix.
Qed.

Lemma C4_render_layout_witness :
  Dmrconfig_Codeplug.render small_in_template
  = (sections ← mapM (section_of small_in_template) fixed_order;
     Ok (Dmrconfig_Codeplug.version_line :: concat sections))
  /\ Dmrconfig_Codeplug.render_template small_in_template
     = (body ← Dmrconfig_Codeplug.render small_in_template;
        Ok (join newline
              (DmrConfigTemplate.header small_template ++ body
               ++ DmrConfigTemplate.footer small_template)))
  /\ forall document,
       Dmrconfig_Codeplug.render_template small_in_template = Ok document ->
       join newline (DmrConfigTemplate.footer small_template) `suffix_of` document.
Proof. apply (C4_render_layout small_in_template small_template). reflexivity. Defined.







End Claims.

(* ================================================================== *)
(** * Further properties of the code *)
(* ================================================================== *)

Section ExtraRangeProofs.
Import Py Dmrconfig RangeSpec ExtraSpec.

Lemma items_by_index_snoc {A K} `{EqDecision K}
    (all_items : list A) (key : A -> K) (offset : Z) (item : A) (k : K) :
  Dict.get (items_by_index (all_items ++ [item]) key offset) k
  = if decide (key item = k) then Some (Z.of_nat (length all_items) + offset)
    else Dict.get (items_by_index all_items key offset) k.
Proof.
  unfold items_by_index. by rewrite enumerate_snoc, foldl_snoc, Dict_get_set.
Qed.

Lemma items_by_index_None {A K} `{EqDecision K}
    (all_items : list A) (key : A -> K) (offset : Z) (k : K) :
  Dict.get (items_by_index all_items key offset) k = None
  <-> k ∉ (key <$> all_items).
Proof.
  induction all_items as [|item l IH] using rev_ind.
  - split; [intros _; apply not_elem_of_nil | done].
  - rewrite items_by_index_snoc, fmap_app, not_elem_of_app. simpl.
    destruct (decide (key item = k)) as [<-|Hne].
    + split; [done|]. intros [_ Hnot]. exfalso. apply Hnot, list_elem_of_here.
    + rewrite IH. split; [|by intros [? _]]. intros Hl. split; [done|].
      intros Hin%list_elem_of_singleton. by apply Hne.
Qed.

Lemma items_by_index_Some {A K} `{EqDecision K}
    (all_items : list A) (key : A -> K) (offset : Z) (k : K) (i : Z) :
  Dict.get (items_by_index all_items key offset) k = Some i
  <-> exists n : nat, i = Z.of_nat n + offset /\ last_place all_items key k n.
Proof.
  revert i. induction all_items as [|item l IH] using rev_ind; intros i.
  - split; [done|]. by intros (n & _ & (x & Hx & _) & _).
  - rewrite items_by_index_snoc.
    destruct (decide (key item = k)) as [Hk|Hne].
    + split.
      * intros [= <-]. exists (length l). split; [done|]. split.
        -- exists item. split; [|done].
           by rewrite lookup_app_r, Nat.sub_diag by lia.
        -- intros later x Hlater Hx. apply lookup_lt_Some in Hx.
           rewrite length_app in Hx. simpl in Hx. lia.
      * intros (n & -> & (x & Hx & Hkx) & Hmax).
        destruct (decide (n = length l)) as [->|Hn]; [done|].
        exfalso. apply lookup_lt_Some in Hx as Hlt.
        rewrite length_app in Hlt. simpl in Hlt.
        apply (Hmax (length l) item); [lia | | done].
        by rewrite lookup_app_r, Nat.sub_diag by lia.
    + rewrite IH. split.
      * intros (n & -> & (x & Hx & Hkx) & Hmax). exists n. split; [done|].
        apply lookup_lt_Some in Hx as Hlt. split.
        -- exists x. by rewrite lookup_app_l.
        -- intros later y Hlater Hy.
           destruct (decide (later = length l)) as [->|Hl].
           ++ rewrite lookup_app_r, Nat.sub_diag in Hy by lia.
              by injection Hy as <-.
           ++ apply lookup_lt_Some in Hy as Hlt'.
              rewrite length_app in Hlt'. simpl in Hlt'.
              rewrite lookup_app_l in Hy by lia. by eapply Hmax.
      * intros (n & -> & (x & Hx & Hkx) & Hmax). exists n. split; [done|].
        apply lookup_lt_Some in Hx as Hlt. rewrite length_app in Hlt. simpl in Hlt.
        destruct (decide (n = length l)) as [->|Hn].
        { rewrite lookup_app_r, Nat.sub_diag in Hx by lia.
          injection Hx as <-. done. }
        split.
        -- exists x. by rewrite lookup_app_l in Hx by lia.
        -- intros later y Hlater Hy. apply (Hmax later y); [done|].
           apply lookup_lt_Some in Hy as ?. by rewrite lookup_app_l.
Qed.

(** An index built with an offset is the index built with offset 0, each
    value moved by the offset. *)
Lemma items_by_index_offset {A K} `{EqDecision K}
    (all_items : list A) (key : A -> K) (offset : Z) (k : K) :
  Dict.get (items_by_index all_items key offset) k
  = (fun i => i + offset) <$> Dict.get (items_by_index all_items key 0) k.
Proof.
  induction all_items as [|item l IH] using rev_ind; [done|].
  rewrite !items_by_index_snoc.
  destruct (decide (key item = k)); [|done]. simpl. f_equal. lia.
Qed.

Lemma Dict_item_offset {A K} `{EqDecision K}
    (all_items : list A) (key : A -> K) (offset : Z) (k : K) :
  Dict.item (items_by_index all_items key offset) k
  = (i ← Dict.item (items_by_index all_items key 0) k; Ok (i + offset)).
Proof.
  unfold Dict.item. rewrite items_by_index_offset.
  by destruct (Dict.get (items_by_index all_items key 0) k).
Qed.

Lemma mapM_is_Ok {A B} (f : A -> result B) (l : list A) :
  is_Ok (mapM f l) <-> forall a, a ∈ l -> is_Ok (f a).
Proof.
  induction l as [|a l IH]; simpl.
  - split; [intros _ a Ha; by apply elem_of_nil in Ha | by eexists].
  - split.
    + intros [bs Hbs] a' Ha'.
      destruct (f a) as [b|e] eqn:Hfa; [|done]. simpl in Hbs.
      destruct (mapM f l) as [bs'|e] eqn:Hl; [|done].
      apply elem_of_cons in Ha' as [->|Ha']; [by eexists|].
      apply IH; [by eexists | done].
    + intros Hall. destruct (Hall a) as [b ->]; [apply list_elem_of_here|].
      destruct (proj2 IH) as [bs ->]; [|by eexists].
      intros a' Ha'. apply Hall. by apply list_elem_of_further.
Qed.

Lemma offset_ranges_fmap ranges offset :
  offset_ranges ranges offset
  = (fun r => match r with
              | Span low high => Span (low + offset) (high + offset)
              | Ix i => Ix (i + offset)
              end) <$> ranges.
Proof. done. Qed.

(** Moving the index read and the tokens built by the same amount keeps a
    turn of the loop in step. *)
Lemma range_step_offset ranges x offset :
  range_step (offset_ranges ranges offset) (x + offset)
  = offset_ranges (range_step ranges x) offset.
Proof.
  unfold range_step. rewrite !offset_ranges_fmap, fmap_last.
  destruct (last ranges) as [r|]; simpl.
  - destruct r as [i|low high]; simpl.
    + replace (i + offset + 1 =? x + offset) with (i + 1 =? x)
        by (destruct (Z.eqb_spec (i + 1) x), (Z.eqb_spec (i + offset + 1) (x + offset)); lia).
      destruct (i + 1 =? x).
      * by rewrite list_fmap_insert, length_fmap.
      * by rewrite fmap_app.
    + replace (high + offset + 1 =? x + offset) with (high + 1 =? x)
        by (destruct (Z.eqb_spec (high + 1) x), (Z.eqb_spec (high + offset + 1) (x + offset)); lia).
      destruct (high + 1 =? x).
      * by rewrite list_fmap_insert, length_fmap.
      * by rewrite fmap_app.
  - by rewrite fmap_app.
Qed.

Lemma foldl_range_step_offset l offset :
  foldl range_step [] ((fun i => i + offset) <$> l)
  = offset_ranges (foldl range_step [] l) offset.
Proof.
  induction l as [|x l IH] using rev_ind; [done|].
  rewrite fmap_app. simpl. rewrite !foldl_snoc, IH. apply range_step_offset.
Qed.

Lemma expand_offset r offset :
  expand (match r with
          | Span low high => Span (low + offset) (high + offset)
          | Ix i => Ix (i + offset)
          end)
  = (fun i => i + offset) <$> expand r.
Proof.
  destruct r as [i|low high]; simpl; [done|].
  replace (high + offset - (low + offset) + 1) with (high - low + 1) by lia.
  rewrite <- (Z.add_comm offset low), <- fmap_add_seqZ.
  apply list_fmap_ext. intros _ x _. lia.
Qed.

(** One turn of the loop keeps the tokens separated. *)
Lemma range_step_separated l ranges x :
  scanned l ranges -> separated ranges -> separated (range_step ranges x).
Proof.
  intros (_ & _ & Hlast & _) Hsep. unfold range_step.
  destruct (last ranges) as [r|] eqn:Hr.
  - apply last_Some in Hr as [ranges' ->].
    assert (Hunpack :
      (let '(low_index, previous_index) :=
         match r with Ix i => (i, i) | Span low high => (low, high) end in
       (low_index, previous_index)) = (low_of r, high_of r)) by by destruct r.
    destruct (match r with Ix i => (i, i) | Span low high => (low, high) end)
      as [low_index previous_index].
    injection Hunpack as -> ->.
    destruct (high_of r + 1 =? x) eqn:Hb.
    + replace (Nat.pred (length (ranges' ++ [r]))) with (length ranges' + 0)%nat
        by (rewrite length_app; simpl; lia).
      rewrite insert_app_r. simpl.
      intros before r1 r2 after Heq.
      destruct after as [|z after _] using rev_ind.
      * change (before ++ [r1; r2]) with (before ++ [r1] ++ [r2]) in Heq.
        rewrite app_assoc in Heq. apply app_inj_tail in Heq as [-> <-].
        simpl. apply (Hsep before r1 r []). by rewrite <- app_assoc.
      * rewrite !app_comm_cons, app_assoc in Heq.
        apply app_inj_tail in Heq as [-> _].
        apply (Hsep before r1 r2 (after ++ [r])).
        by rewrite <- app_assoc.
    + intros before r1 r2 after Heq.
      destruct after as [|z after _] using rev_ind.
      * change (before ++ [r1; r2]) with (before ++ [r1] ++ [r2]) in Heq.
        rewrite app_assoc in Heq. apply app_inj_tail in Heq as [Heq <-].
        apply app_inj_tail in Heq as [_ <-]. simpl.
        by apply Z.eqb_neq.
      * rewrite !app_comm_cons, app_assoc in Heq.
        apply app_inj_tail in Heq as [Heq _].
        by apply (Hsep before r1 r2 after).
  - apply last_None in Hr as ->. simpl.
    intros before r1 r2 after Heq. by destruct before as [|? [|? ?]].
Qed.

Lemma foldl_range_step_separated l : separated (foldl range_step [] l).
Proof.
  induction l as [|x l IH] using rev_ind.
  - intros before r1 r2 after Heq. by destruct before.
  - rewrite foldl_snoc.
    apply (range_step_separated l); [apply foldl_range_step_scanned | done].
Qed.

End ExtraRangeProofs.

Section ExtraMungeProofs.
Import Py Munge MungeSpec TemplateSpec ExtraSpec.

Lemma replace_go_length old new skip s :
  (1 <= length old)%nat -> (length new <= length old)%nat ->
  (length (replace_go old new skip s) <= length s - skip)%nat.
Proof.
  intros Hold Hnew. revert skip. induction s as [|c s IH]; intros skip; [simpl; lia|].
  simpl. destruct skip as [|k].
  - destruct (startswith old (c :: s)) eqn:Hs.
    + apply startswith_prefix, prefix_length in Hs. simpl in Hs.
      rewrite length_app. specialize (IH (length old - 1)%nat). lia.
    + simpl. specialize (IH 0%nat). lia.
  - specialize (IH k). lia.
Qed.

Lemma replace_length entry s :
  shrinking entry = true ->
  (length (replace entry.1 entry.2 s) <= length s)%nat.
Proof.
  destruct entry as [old new]. unfold shrinking. simpl.
  destruct old as [|c old]; [done|]. intros Hle%Nat.leb_le.
  unfold replace.
  pose proof (replace_go_length (c :: old) new 0 s). simpl in *. lia.
Qed.

Lemma shorten_length replacements s max_length :
  Forall (fun entry => shrinking entry = true) replacements ->
  (length (shorten replacements s max_length) <= length s)%nat.
Proof.
  intros Hall. revert s. induction Hall as [|entry l Hentry _ IH]; intros s.
  - simpl. by destruct (max_length <? len s).
  - simpl. destruct (max_length <? len s); [|done].
    destruct entry as [old new].
    pose proof (replace_length (old, new) s Hentry). pose proof (IH (replace old new s)).
    simpl in *. lia.
Qed.

Lemma shorten_fits replacements s max_length :
  len s <= max_length -> shorten replacements s max_length = s.
Proof.
  intros Hfits. assert (Hb : (max_length <? len s) = false) by by apply Z.ltb_ge.
  destruct replacements; simpl; by rewrite Hb.
Qed.

Lemma replace_go_no_occurrence old new s :
  old <> [] -> ~ occurs old s -> replace_go old new 0 s = s.
Proof.
  intros Hold. induction s as [|c s IH]; [done|]. intros Hno. simpl.
  destruct (startswith old (c :: s)) eqn:Hs.
  - exfalso. apply Hno. apply startswith_prefix in Hs as [r Hr].
    by exists [], r.
  - f_equal. apply IH. intros (a & b & ->). apply Hno. by exists (c :: a), b.
Qed.

Lemma replace_no_occurrence old new s :
  old <> [] -> ~ occurs old s -> replace old new s = s.
Proof.
  intros Hold Hno. unfold replace. destruct old; [done|].
  by apply replace_go_no_occurrence.
Qed.

Lemma shorten_no_occurrence replacements s max_length :
  Forall (fun entry => entry.1 <> [] /\ ~ occurs entry.1 s) replacements ->
  shorten replacements s max_length = s.
Proof.
  induction 1 as [|[old new] l [Hold Hno] _ IH]; simpl.
  - by destruct (max_length <? len s).
  - destruct (max_length <? len s); [|done].
    simpl in *. by rewrite replace_no_occurrence.
Qed.

Lemma match_tail_code_nonempty s group : match_tail_code s = Some group -> group <> [].
Proof.
  unfold match_tail_code, match_space_upper. destruct s as [|c s]; [done|].
  repeat case_match; naive_solver.
Qed.

Lemma search_tail_code_nonempty s group :
  search_tail_code s = Some group -> group <> [].
Proof.
  induction s as [|c s IH]; rewrite search_tail_code_eq.
  - by destruct (match_tail_code []) eqn:Hm.
  - destruct (match_tail_code (c :: s)) as [m|] eqn:Hm; [|done].
    intros [= <-]. by eapply match_tail_code_nonempty.
Qed.

(** A boolean check that none of the phrases occurs in [s]. *)
Lemma Forall_no_phrase (replacements : list (str * str)) s :
  forallb (fun entry => match entry.1 with
                        | [] => false
                        | _ :: _ => negb (contains entry.1 s)
                        end) replacements = true ->
  Forall (fun entry => entry.1 <> [] /\ ~ occurs entry.1 s) replacements.
Proof.
  rewrite forallb_forall, Forall_forall. intros Hall entry Hin.
  apply list_elem_of_In, Hall in Hin. destruct entry as [[|c old] new]; [done|].
  simpl in *. split; [done|]. intros Ho%contains_occurs. by rewrite Ho in Hin.
Qed.

Lemma replace_char c d s :
  replace [c] [d] s = (fun x => if Ascii.eqb c x then d else x) <$> s.
Proof.
  unfold replace. induction s as [|x s IH]; [done|].
  simpl. rewrite andb_true_r. destruct (Ascii.eqb c x); simpl; by rewrite IH.
Qed.

End ExtraMungeProofs.

Section ExtraMungeFacts.
Import Py Munge MungeSpec TemplateSpec ExtraSpec.

Lemma replacements_shrinking :
  Forall (fun entry => shrinking entry = true)
         (reverse Talkgroup_Channel_name_replacements).
Proof. apply (bool_decide_unpack _). vm_compute. reflexivity. Qed.

Lemma slice_to_nonneg {A} (s : list A) k :
  0 <= k -> slice_to s k = take (Z.to_nat k) s.
Proof.
  intros Hk. unfold slice_to, slice_bound.
  destruct (k <? 0) eqn:Hneg; [lia|].
  destruct (decide (Z.to_nat k <= length s)%nat).
  - f_equal. lia.
  - rewrite !take_ge; [done | lia | lia].
Qed.

Lemma slice_to_length_le {A} (s : list A) k : (length (slice_to s k) <= length s)%nat.
Proof. unfold slice_to. rewrite length_take. lia. Qed.

(** The name with its middle cut out: what comes before the last
    [n_trunc + n_tail] characters, then the last [n_tail] characters. *)
Lemma cut_middle_length (s : str) (max_length n_tail : Z) :
  0 < n_tail -> n_tail + 1 < max_length -> max_length < len s ->
  len (slice_to s (- (len s - max_length) - n_tail) ++ slice_from s (- n_tail))
  = max_length.
Proof.
  intros Htail Hguard Hlong. unfold len, slice_to, slice_from, slice_bound in *.
  rewrite length_app, length_take, length_drop.
  destruct (_ <? 0) eqn:H1; destruct (- n_tail <? 0) eqn:H2; lia.
Qed.

End ExtraMungeFacts.

Section ExtraRenderProofs.
Import Py Format Model Dmrconfig RangeSpec TemplateSpec RenderSpec ExtraSpec.
Import DmrConfigTemplate.

Lemma items_to_range_tuples_is_Ok {A K} `{EqDecision K}
    (items_by_index : dict K Z) (selected_items : list A) (key : A -> K) :
  is_Ok (items_to_range_tuples items_by_index selected_items key)
  <-> forall item,
        item ∈ selected_items -> is_Some (Dict.get items_by_index (key item)).
Proof.
  unfold items_to_range_tuples, selected_indexes. split.
  - intros [ranges Hr] item Hin.
    destruct (mapM _ selected_items) as [ixs|e] eqn:Hm; [|done].
    assert (Hok : is_Ok (mapM (fun item => Dict.item items_by_index (key item))
                           selected_items)) by by eexists.
    rewrite mapM_is_Ok in Hok. destruct (Hok item Hin) as [i Hi].
    unfold Dict.item in Hi. by destruct (Dict.get _ _).
  - intros Hall.
    destruct (proj2 (mapM_is_Ok (fun item => Dict.item items_by_index (key item))
                       selected_items)) as [ixs ->]; [|by eexists].
    intros item Hin. destruct (Hall item Hin) as [i Hi].
    unfold Dict.item. rewrite Hi. by eexists.
Qed.

Lemma items_to_range_tuples_Err {A K} `{EqDecision K}
    (items_by_index : dict K Z) (selected_items : list A) (key : A -> K) e :
  items_to_range_tuples items_by_index selected_items key = Err e -> e = KeyError.
Proof.
  unfold items_to_range_tuples, selected_indexes.
  destruct (mapM _ selected_items) as [ixs|e'] eqn:Hm; [done|].
  intros [= ->]. apply mapM_Err in Hm as (item & _ & Hitem).
  unfold Dict.item in Hitem. destruct (Dict.get _ _); by inversion Hitem.
Qed.

(** A line read goes to the header or to the footer, and nowhere else. *)
Lemma read_line_Ok t0 tline t1 :
  read_line t0 tline = Ok t1 ->
  (header t1 = header t0 ++ [tline] /\ footer t1 = footer t0)
  \/ (header t1 = header t0 /\ footer t1 = footer t0 ++ [tline]).
Proof.
  unfold read_line. destruct (radio t0) as [r|].
  - destruct (is_metadata tline); intros [= <-]; [by left | by right].
  - destruct (partition tline marker) as [[before match_] radio_type].
    destruct match_ as [|c match_].
    + intros [= <-]. by left.
    + destruct (Radio_of_value radio_type); [|done]. intros [= <-]. by left.
Qed.

Lemma foldM_read_line_Ok lines t0 t1 :
  foldM read_line t0 lines = Ok t1 ->
  exists hs fs,
    header t1 = header t0 ++ hs /\ footer t1 = footer t0 ++ fs
    /\ hs `sublist_of` lines /\ fs `sublist_of` lines /\ hs ++ fs ≡ₚ lines.
Proof.
  revert t0. induction lines as [|tline lines IH]; intros t0.
  - intros [= <-]. exists [], []. by rewrite !app_nil_r.
  - simpl. destruct (read_line t0 tline) as [t'|e] eqn:Hline; [|done].
    intros Hrest. destruct (IH t' Hrest) as (hs & fs & Hh & Hf & Hsh & Hsf & Hperm).
    apply read_line_Ok in Hline as [[Hh' Hf'] | [Hh' Hf']].
    + exists (tline :: hs), fs. rewrite Hh, Hf, Hh', Hf', <- app_assoc.
      split; [done|]. split; [done|]. split; [by apply sublist_skip|].
      split; [by apply sublist_cons|]. simpl. by rewrite Hperm.
    + exists hs, (tline :: fs). rewrite Hh, Hf, Hh', Hf', <- app_assoc.
      split; [done|]. split; [done|]. split; [by apply sublist_cons|].
      split; [by apply sublist_skip|].
      by rewrite <- Permutation_middle, Hperm.
Qed.

End ExtraRenderProofs.

Section ExtraTableProofs.
Import Py Format Model Dmrconfig RangeSpec TemplateSpec RenderSpec ExtraSpec.
Context `{M : DzcbModel}.

(** The row of a zone formats whenever its channels resolve. *)
Lemma zone_format_row (table : Table.t) ix zone :
  is_Ok (Table.format_row ZoneTable.fmt ZoneTable.item_to_dict table ix zone)
  <-> is_Ok (items_to_range_tuples
               (CodeplugIndexLookup.channel (Table.index table))
               (Zone_unique_channels zone) Channel_key).
Proof.
  unfold Table.format_row, ZoneTable.item_to_dict.
  destruct (items_to_range_tuples _ _ _) as [ranges|e]; simpl.
  - split; intros _; [by eexists|]. vm_compute. by eexists.
  - split; by intros [? ?].
Qed.

Lemma zone_format_row_Err (table : Table.t) ix zone e :
  Table.format_row ZoneTable.fmt ZoneTable.item_to_dict table ix zone = Err e ->
  e = KeyError.
Proof.
  unfold Table.format_row, ZoneTable.item_to_dict.
  destruct (items_to_range_tuples _ _ _) as [ranges|e'] eqn:Hr; simpl.
  - vm_compute. discriminate.
  - intros [= <-]. by eapply items_to_range_tuples_Err.
Qed.

(** When [render] returns, the rows of every table have formatted. *)
Lemma render_Ok_rows (self : Dmrconfig_Codeplug.t) k :
  is_Ok (Dmrconfig_Codeplug.render self) -> is_Ok (rows_of k (table_of self k)).
Proof.
  rewrite render_sections. intros [lines Hlines].
  destruct (mapM (section_of self) fixed_order) as [sections|e] eqn:Hs; [|done].
  assert (Hok : is_Ok (mapM (section_of self) fixed_order)) by by eexists.
  rewrite mapM_is_Ok in Hok.
  destruct (Hok k) as [section Hk]; [destruct k; unfold fixed_order;
     repeat first [apply list_elem_of_here | apply list_elem_of_further]|].
  destruct (rows_of k (table_of self k)) as [rows|e] eqn:Hrows; [by eexists|].
  unfold section_of in Hk.
  destruct (docs_of_Ok k (table_of self k)) as [docs Hd].
  destruct (header_of_Ok k) as [header Hh].
  rewrite Hd, Hh, Hrows in Hk. done.
Qed.


End ExtraTableProofs.

(* ================================================================== *)
(** * Further properties, stated *)
(* ================================================================== *)

Section Extras.
Import Py Format Model Dmrconfig RangeSpec TemplateSpec RenderSpec ExtraSpec Example.

(** X1.  The index lookup maps a key to the offset plus the last place at
    which an item with that key stands in the sequence (so that of two
    items with the same key the later one wins), and holds no other key. *)
Theorem X1_items_by_index_last_wins {A K} `{EqDecision K}
    (all_items : list A) (key : A -> K) (offset : Z) (k : K) :
  (forall i,
      Dict.get (items_by_index all_items key offset) k = Some i
      <-> exists n : nat, i = Z.of_nat n + offset /\ last_place all_items key k n)
  /\ (Dict.get (items_by_index all_items key offset) k = None
      <-> k ∉ (key <$> all_items)).
Proof.
  split; [intros i; apply items_by_index_Some | apply items_by_index_None].
Qed.

(** X2.  The range compressor returns tokens exactly when every selected
    item has its key in the mapping; otherwise it raises KeyError, and
    nothing else ever. *)
Theorem X2_range_tuples_key_error {A K} `{EqDecision K}
    (items_by_index : dict K Z) (selected_items : list A) (key : A -> K) :
  (is_Ok (items_to_range_tuples items_by_index selected_items key)
   <-> forall item,
         item ∈ selected_items -> is_Some (Dict.get items_by_index (key item)))
  /\ forall e,
       items_to_range_tuples items_by_index selected_items key = Err e ->
       e = KeyError.
Proof.
  split; [apply items_to_range_tuples_is_Ok | apply items_to_range_tuples_Err].
Qed.

(** X3.  Compressing against an index built with an offset gives the tokens
    compressed against the index built with offset 0, moved by that offset
    with [offset_ranges]; and it fails when the other does. *)
Theorem X3_offset_commutes {A B K} `{EqDecision K}
    (all_items : list A) (all_key : A -> K) (offset : Z)
    (selected_items : list B) (key : B -> K) :
  match items_to_range_tuples (items_by_index all_items all_key 0)
          selected_items key with
  | Ok ranges =>
      items_to_range_tuples (items_by_index all_items all_key offset)
        selected_items key
      = Ok (offset_ranges ranges offset)
  | Err e =>
      items_to_range_tuples (items_by_index all_items all_key offset)
        selected_items key
      = Err e
  end.
Proof.
  unfold items_to_range_tuples, selected_indexes.
  assert (Hm : mapM (fun item => Dict.item (items_by_index all_items all_key offset)
                                   (key item)) selected_items
               = (ixs ← mapM (fun item => Dict.item (items_by_index all_items all_key 0)
                                            (key item)) selected_items;
                  Ok ((fun i => i + offset) <$> ixs))).
  { induction selected_items as [|item l IH]; [done|].
    cbn [mapM]. rewrite IH, Dict_item_offset.
    destruct (Dict.item (items_by_index all_items all_key 0) (key item)); [|done].
    cbn [mbind result_bind].
    by destruct (mapM (fun item => Dict.item (items_by_index all_items all_key 0)
                                     (key item)) l). }
  rewrite Hm. clear Hm.
  destruct (mapM _ selected_items) as [ixs|e]; simpl; [|done].
  by rewrite foldl_range_step_offset.
Qed.

(** X4.  [offset_ranges] moves what the tokens stand for by the offset, does
    nothing with offset 0, and two moves add up. *)
Theorem X4_offset_ranges (ranges : list Range) (a b : Z) :
  expand_all (offset_ranges ranges a) = (fun i => i + a) <$> expand_all ranges
  /\ offset_ranges ranges 0 = ranges
  /\ offset_ranges (offset_ranges ranges a) b = offset_ranges ranges (a + b).
Proof.
  split; [|split].
  - induction ranges as [|r ranges IH]; [done|].
    change (expand_all (offset_ranges (r :: ranges) a))
      with (expand (match r with
                    | Span low high => Span (low + a) (high + a)
                    | Ix i => Ix (i + a)
                    end) ++ expand_all (offset_ranges ranges a)).
    change (expand_all (r :: ranges)) with (expand r ++ expand_all ranges).
    by rewrite fmap_app, IH, expand_offset.
  - induction ranges as [|r ranges IH]; [done|].
    simpl. rewrite IH. destruct r; by rewrite !Z.add_0_r.
  - induction ranges as [|r ranges IH]; [done|].
    simpl. rewrite IH. destruct r; by rewrite <- !Z.add_assoc.
Qed.

(** X5.  The tokens the range compressor returns are as long as they can
    be: a pair (low, high) always has low < high, and no token ends right
    before the next one starts. *)
Theorem X5_tokens_maximal {A K} `{EqDecision K}
    (items_by_index : dict K Z) (selected_items : list A) (key : A -> K)
    (ranges : list Range) :
  items_to_range_tuples items_by_index selected_items key = Ok ranges ->
  Forall well_formed ranges /\ separated ranges.
Proof.
  unfold items_to_range_tuples.
  destruct (selected_indexes _ _ _) as [ixs|e]; [|done]. intros [= <-]. split.
  - by destruct (foldl_range_step_scanned ixs) as (_ & Hwf & _).
  - apply foldl_range_step_separated.
Qed.

Lemma X5_tokens_maximal_witness :
  Forall well_formed [Span 1 3; Ix 5] /\ separated [Span 1 3; Ix 5].
Proof.
  apply (X5_tokens_maximal five_by_index four_selected id [Span 1 3; Ix 5]).
  reflexivity.
Defined.

(** X6.  A name in a row is the first 16 characters of the entity's name
    with every space turned into an underscore: it is never longer than the
    name limit of the radio and never holds a space. *)
Theorem X6_name_munge `{M : DzcbModel} (self : Table.t) (name : str) :
  Table.name_munge self name = underscore <$> take 16 name
  /\ len (Table.name_munge self name) <= name_limit (Table.radio self)
  /\ " "%char ∉ Table.name_munge self name.
Proof.
  assert (Heq : Table.name_munge self name = underscore <$> take 16 name).
  { unfold Table.name_munge. change (L " ") with [" "%char].
    change (L "_") with ["_"%char]. rewrite replace_char.
    replace (name_limit (Table.radio self)) with 16
      by (by destruct (Table.radio self)).
    rewrite slice_to_nonneg by lia.
    apply list_fmap_ext. intros _ x _. unfold underscore.
    by rewrite (Ascii.eqb_sym " " x). }
  split; [done|]. rewrite Heq. split.
  - unfold len. rewrite length_fmap, length_take.
    replace (name_limit (Table.radio self)) with 16
      by (by destruct (Table.radio self)).
    lia.
  - intros (x & Hx & _)%list_elem_of_fmap. unfold underscore in Hx.
    destruct (Ascii.eqb_spec x " "); [done|]. by subst x.
Qed.

(** X14.  A name that fits the limit comes back as it is: nothing is
    replaced in it and nothing is cut. *)
Theorem X14_channel_name_fits (name : str) (max_length : Z) :
  len name <= max_length -> Munge.channel_name name max_length = name.
Proof.
  intros Hfits. unfold Munge.channel_name. rewrite shorten_fits by done.
  assert (Hb : (max_length <? len name) = false) by by apply Z.ltb_ge.
  rewrite Hb. destruct (Munge.search_tail_code name); by apply slice_to_all.
Qed.

Lemma X14_channel_name_fits_witness :
  Munge.channel_name (L "Worldwide 1") 16 = L "Worldwide 1".
Proof. apply (X14_channel_name_fits (L "Worldwide 1") 16). vm_compute. discriminate. Defined.

(** X15.  The name normalizer never returns a name longer than the one it
    was given, whatever the limit. *)
Theorem X15_channel_name_never_longer (name : str) (max_length : Z) :
  len (Munge.channel_name name max_length) <= len name.
Proof.
  unfold Munge.channel_name.
  pose proof (shorten_length (reverse Munge.Talkgroup_Channel_name_replacements)
                name max_length replacements_shrinking) as Hshort.
  set (s1 := Munge.shorten _ name max_length) in *.
  assert (Hle : forall s : str,
             len s <= len s1 -> len (slice_to s max_length) <= len name).
  { intros s Hs. pose proof (slice_to_length_le s max_length). unfold len in *. lia. }
  destruct (Munge.search_tail_code s1) as [group|] eqn:Hg; [|by apply Hle].
  destruct (max_length <? len s1) eqn:Hlong; [|by apply Hle].
  destruct (len group + 1 <? max_length) eqn:Hguard; [|by apply Hle].
  apply Hle. apply Z.ltb_lt in Hlong, Hguard.
  apply search_tail_code_nonempty in Hg.
  rewrite cut_middle_length; [lia | | done | done].
  unfold len. destruct group; [done | simpl; lia].
Qed.

(** X16.  What the name normalizer does to a name that is too long, holds
    none of the phrases of the dictionary and ends in a tail code (a space
    and uppercase letters, with the digit 1 or 2 before the space or
    without), when the limit leaves room for the tail and two characters
    more: it keeps the beginning of the name and the tail, and drops what
    is between them, so that the result has exactly the length of the
    limit. *)
Theorem X16_channel_name_cuts_middle (head digit letters : str) (max_length : Z) :
  letters <> [] ->
  MungeSpec.uppercase letters ->
  (digit = [] /\ ~ MungeSpec.ends_in_12 head) \/ digit = L "1" \/ digit = L "2" ->
  Forall (fun entry => entry.1 <> []
                       /\ ~ occurs entry.1 (head ++ digit ++ L " " ++ letters))
         Munge.Talkgroup_Channel_name_replacements ->
  len (digit ++ L " " ++ letters) + 1 < max_length ->
  max_length < len (head ++ digit ++ L " " ++ letters) ->
  Munge.channel_name (head ++ digit ++ L " " ++ letters) max_length
  = take (Z.to_nat (max_length - len (digit ++ L " " ++ letters))) head
    ++ digit ++ L " " ++ letters.
Proof.
  intros Hne Hup Hdigit Hphrases Hroom Hlong.
  set (tail := digit ++ L " " ++ letters) in *.
  unfold Munge.channel_name.
  rewrite shorten_no_occurrence by by apply Forall_reverse.
  assert (Hfound : Munge.search_tail_code (head ++ tail) = Some tail).
  { subst tail. rewrite app_assoc.
    change (L " " ++ letters) with (" "%char :: letters).
    rewrite search_tail_code_found by done. do 2 f_equal.
    unfold MungeSpec.digit_before.
    destruct Hdigit as [[-> Hno] | [-> | ->]].
    - rewrite app_nil_r. destruct (last head) as [c|] eqn:Hlast; [|done].
      destruct (Munge.is_12 c) eqn:Hc; [|done].
      exfalso. apply Hno. by exists c.
    - change (L "1") with ["1"%char]. by rewrite last_snoc.
    - change (L "2") with ["2"%char]. by rewrite last_snoc. }
  rewrite Hfound.
  assert (Htl : tail <> []) by (subst tail; by destruct digit).
  assert (Hb1 : (max_length <? len (head ++ tail)) = true) by by apply Z.ltb_lt.
  assert (Hb2 : (len tail + 1 <? max_length) = true) by by apply Z.ltb_lt.
  rewrite Hb1, Hb2, slice_from_neg by done.
  assert (Hcut : slice_to (head ++ tail) (- (len (head ++ tail) - max_length) - len tail)
                 = take (Z.to_nat (max_length - len tail)) head).
  { unfold len in *. rewrite length_app in Hlong.
    unfold slice_to, slice_bound. rewrite length_app.
    destruct (_ <? 0) eqn:Hneg; [|apply Z.ltb_ge in Hneg; lia].
    rewrite take_app_le by lia. f_equal. lia. }
  rewrite Hcut. apply slice_to_all.
  unfold len in *. rewrite length_app in Hlong.
  rewrite length_app, length_take. lia.
Qed.

Lemma X16_channel_name_cuts_middle_witness :
  Munge.channel_name (L "Seattle Repeater 2 WA") 16
  = take (Z.to_nat (16 - len (L "2 WA"))) (L "Seattle Repeater ") ++ L "2 WA".
Proof.
  apply (X16_channel_name_cuts_middle (L "Seattle Repeater ") (L "2") (L "WA") 16).
  - done.
  - by repeat constructor.
  - right. by right.
  - apply Forall_no_phrase. vm_compute. reflexivity.
  - vm_compute. reflexivity.
  - vm_compute. reflexivity.
Defined.

(** X17.  The loop on the dictionary of phrases makes the replacements in
    the order in which the entries are taken, and as few of them as it
    takes: it stops as soon as the name fits the limit, or when no entry is
    left, and before each replacement made the name was too long. *)
Theorem X17_shorten_stops (replacements : list (str * str)) (name : str)
    (max_length : Z) :
  exists n : nat,
    (n <= length replacements)%nat
    /\ Munge.shorten replacements name max_length
       = replace_all (take n replacements) name
    /\ (n = length replacements
        \/ len (Munge.shorten replacements name max_length) <= max_length)
    /\ forall m : nat,
         (m < n)%nat -> max_length < len (replace_all (take m replacements) name).
Proof.
  revert name. induction replacements as [|[old new] l IH]; intros name.
  - exists 0%nat. split; [done|]. split; [by simpl; destruct (_ <? _)|].
    split; [by left | lia].
  - simpl. destruct (max_length <? len name) eqn:Hlong.
    + destruct (IH (replace old new name)) as (n & Hn & Heq & Hstop & Hbefore).
      exists (S n). split; [lia|]. split; [done|]. split.
      * destruct Hstop as [->|Hfit]; [by left | by right].
      * intros [|m] Hm; [by apply Z.ltb_lt | apply Hbefore; lia].
    + exists 0%nat. split; [lia|]. split; [done|]. split; [|lia].
      right. by apply Z.ltb_ge.
Qed.

(** X7.  A template that is read loses no line and gains none but the blank
    line that ends the header: the header without that blank line and the
    footer are each made of lines of the template in their order, and
    between them they hold every line exactly once; and a radio has been
    found. *)
Theorem X7_template_lines_kept (template : str) (t : DmrConfigTemplate.t) :
  DmrConfigTemplate.read_template template = Ok t ->
  exists hs,
    DmrConfigTemplate.header t = hs ++ [ [] ]
    /\ hs `sublist_of` splitlines template
    /\ DmrConfigTemplate.footer t `sublist_of` splitlines template
    /\ hs ++ DmrConfigTemplate.footer t ≡ₚ splitlines template
    /\ is_Some (DmrConfigTemplate.radio t).
Proof.
  unfold DmrConfigTemplate.read_template, DmrConfigTemplate.read_lines.
  destruct (foldM _ _ _) as [t1|e] eqn:Hfold; [|done]. simpl.
  destruct (DmrConfigTemplate.radio t1) as [r|] eqn:Hr; [|done]. intros [= <-].
  apply foldM_read_line_Ok in Hfold as (hs & fs & Hh & Hf & Hsh & Hsf & Hperm).
  simpl in *. exists hs. rewrite Hh, Hf. by repeat split.
Qed.

Lemma X7_template_lines_kept_witness :
  exists hs,
    [ L "# dmrconfig template"; L "Radio: TYT MD-380";
      L "Last Programmed Date: 2020-01-01"; L "CPS Software Version: 1.0"; [] ]
    = hs ++ [ [] ]
    /\ hs `sublist_of` splitlines template_late_metadata
    /\ [L "Intro Line 1: hello"; L "Intro Line 2: world"]
         `sublist_of` splitlines template_late_metadata
    /\ hs ++ [L "Intro Line 1: hello"; L "Intro Line 2: world"]
         ≡ₚ splitlines template_late_metadata
    /\ is_Some (Some MD_380).
Proof.
  apply (X7_template_lines_kept template_late_metadata
           {| DmrConfigTemplate.header :=
                [ L "# dmrconfig template"; L "Radio: TYT MD-380";
                  L "Last Programmed Date: 2020-01-01";
                  L "CPS Software Version: 1.0"; [] ];
              DmrConfigTemplate.footer :=
                [L "Intro Line 1: hello"; L "Intro Line 2: world"];
              DmrConfigTemplate.radio := Some MD_380 |}).
  vm_compute. reflexivity.
Defined.

(** X8.  When what follows the marker in the first line that holds it is
    not the value of a radio, reading the template raises the ValueError of
    the enumeration, which carries that text; it is not a TemplateError. *)
Theorem X8_unknown_radio_value_error (template : str) (before : list str)
    (tline : str) (after : list str) (a name : str) :
  splitlines template = before ++ tline :: after ->
  Forall (fun l => ~ occurs DmrConfigTemplate.marker l) before ->
  first_occurrence DmrConfigTemplate.marker a name tline ->
  (forall r, name <> Radio_value r) ->
  DmrConfigTemplate.read_template template = Err (ValueError name).
Proof.
  intros Hlines Hbefore Hfirst Hunknown.
  unfold DmrConfigTemplate.read_template. rewrite Hlines.
  rewrite (read_lines_marker before tline after a name) by done.
  unfold Radio_of_value.
  destruct (List.find _ _) as [r|] eqn:Hfind; [|done].
  apply find_some in Hfind as [_ Hv]. apply bool_decide_eq_true in Hv.
  by destruct (Hunknown r).
Qed.

Lemma X8_unknown_radio_value_error_witness :
  DmrConfigTemplate.read_template template_remark_first
  = Err (ValueError (L "see the next line")).
Proof.
  apply (X8_unknown_radio_value_error template_remark_first
           [] (L "# Radio: see the next line") [L "Radio: TYT MD-380"]
           (L "# ") (L "see the next line")).
  - vm_compute. reflexivity.
  - apply Forall_nil_2.
  - apply (find_Some DmrConfigTemplate.marker (L "# Radio: see the next line") 2).
    vm_compute. reflexivity.
  - intros r. destruct r; vm_compute; discriminate.
Defined.

(** Without a template, a rendered codeplug is built as soon as a
    radio is given, and not at all without one (the validator of the radio
    refuses None); its lines can be had with [render], but
    [render_template] raises AttributeError, for want of a header and a
    footer. *)
Lemma no_template_edge_cases `{M : DzcbModel} (table : Table.t) (r : Radio) :
  Dmrconfig_Codeplug.new table None None = Err TypeError
  /\ exists dc,
       Dmrconfig_Codeplug.new table None (Some r) = Ok dc
       /\ Dmrconfig_Codeplug.radio dc = r
       /\ Dmrconfig_Codeplug.template dc = None
       /\ Dmrconfig_Codeplug.render_template dc = Err AttributeError.
Proof. split; [done|]. eexists. by repeat split. Qed.

(** X10.  The rows of the zone table are all built exactly when every
    channel of every zone is a key of the channel index; if one is not, the
    table raises KeyError, nothing else, and [render] returns no lines at
    all. *)
Theorem X10_zone_unresolved `{M : DzcbModel} (table : Table.t) :
  (is_Ok (ZoneTable.rows table)
   <-> forall zone ch,
         zone ∈ zones (Table.codeplug table) ->
         ch ∈ Zone_unique_channels zone ->
         is_Some (Dict.get (CodeplugIndexLookup.channel (Table.index table))
                    (Channel_key ch)))
  /\ (forall e, ZoneTable.rows table = Err e -> e = KeyError)
  /\ forall self,
       Dmrconfig_Codeplug.zone self = table ->
       ~ is_Ok (ZoneTable.rows table) ->
       ~ is_Ok (Dmrconfig_Codeplug.render self).
Proof.
  split; [|split].
  - unfold ZoneTable.rows, Table.rows, ZoneTable.yielded.
    rewrite mapM_is_Ok. split.
    + intros Hrows zone ch Hzone Hch.
      apply list_elem_of_lookup in Hzone as [i Hi].
      assert (Hin : (Z.of_nat i + 1, zone)
                      ∈ Table.numbered (zones (Table.codeplug table)))
        by (apply elem_of_numbered; eauto).
      apply Hrows in Hin. apply zone_format_row in Hin.
      rewrite items_to_range_tuples_is_Ok in Hin. by apply Hin.
    + intros Hall [ix zone] Hin.
      apply elem_of_numbered in Hin as (i & Hi & ->).
      apply zone_format_row, items_to_range_tuples_is_Ok.
      intros ch Hch. apply (Hall zone); [|done].
      by eapply list_elem_of_lookup_2.
  - intros e Hrows. unfold ZoneTable.rows, Table.rows in Hrows.
    apply mapM_Err in Hrows as ([ix zone] & _ & Hrow).
    by eapply zone_format_row_Err.
  - intros self <- Hrows Hrender. apply Hrows.
    apply (render_Ok_rows self zone_kind Hrender).
Qed.

(** X11.  The row of a channel that the digital table yields.  When the
    channel has no offset, building the row raises TypeError, for the sum
    of its frequency and None, whatever its power.  When it has one, the
    row is built and formats whenever the power of the channel is one the
    radio has, and raises what [flattened] raises otherwise.  A reference
    that does not resolve never stops the rendering: a talkgroup that is
    no key of the contact index shows as a dash in the last column. *)
Theorem X11_digital_row `{M : DzcbModel} (table : Table.t) (ix : Z)
    (ch : DigitalChannel) :
  (ix, ch) ∈ DigitalChannelTable.yielded table ->
  match d_offset ch with
  | None =>
      Table.format_row DigitalChannelTable.fmt DigitalChannelTable.item_to_dict
        table ix ch = Err TypeError
  | Some _ =>
      match Power_flattened (d_power ch)
              (Dict.keys (power (Table.radio table))) with
      | Ok p =>
          exists row,
            DigitalChannelTable.item_to_dict table ix ch = Ok row
            /\ is_Ok (format DigitalChannelTable.fmt row)
            /\ (forall tg,
                  d_talkgroup ch = Some tg ->
                  Dict.get (CodeplugIndexLookup.contact (Table.index table))
                    (Contact_key tg) = None ->
                  Dict.get row (L "TxContact") = Some (PyStr (L "-")))
      | Err e =>
          Table.format_row DigitalChannelTable.fmt
            DigitalChannelTable.item_to_dict table ix ch = Err e
      end
  end.
Proof.
  intros Hin.
  apply elem_of_omap_enumerate in Hin as (i & [a|d] & Hi & Hf); [done|].
  destruct (d_talkgroup d) as [tg|] eqn:Htg; [|done]. injection Hf as <- <-.
  unfold Table.format_row, DigitalChannelTable.item_to_dict.
  destruct (d_offset d) as [o|]; [|done]. simpl.
  destruct (Power_flattened _ _) as [p|e]; [|done]. rewrite Htg.
  eexists. split; [reflexivity|]. split.
  - vm_compute. by eexists.
  - intros tg' [= <-] Hnone. cbn. by rewrite Hnone.
Qed.

Lemma X11_digital_row_witness :
  (exists row,
     DigitalChannelTable.item_to_dict mixed_table 3 channel_three = Ok row
     /\ is_Ok (format DigitalChannelTable.fmt row)
     /\ Dict.get row (L "TxContact") = Some (PyStr (L "-")))
  /\ Table.format_row DigitalChannelTable.fmt DigitalChannelTable.item_to_dict
       (Table.new {| contacts := []; channels := [Digital channel_no_offset];
                     grouplists := []; scanlists := []; zones := [] |} D868)
       1 channel_no_offset = Err TypeError.
Proof.
  split.
  - assert (Hrow : exists row,
               DigitalChannelTable.item_to_dict mixed_table 3 channel_three
               = Ok row
               /\ is_Ok (format DigitalChannelTable.fmt row)
               /\ (forall tg,
                     d_talkgroup channel_three = Some tg ->
                     Dict.get (CodeplugIndexLookup.contact
                                 (Table.index mixed_table))
                       (Contact_key tg) = None ->
                     Dict.get row (L "TxContact") = Some (PyStr (L "-")))).
    { apply (X11_digital_row mixed_table 3 channel_three).
      apply list_elem_of_further, list_elem_of_here. }
    destruct Hrow as (row & Hrow & Hfmt & Hdash).
    exists row. split; [exact Hrow|]. split; [exact Hfmt|].
    apply (Hdash bob); reflexivity.
  - apply (X11_digital_row
             (Table.new {| contacts := []; channels := [Digital channel_no_offset];
                           grouplists := []; scanlists := []; zones := [] |} D868)
             1 channel_no_offset).
    apply list_elem_of_here.
Defined.




End Extras.
